(** * The idea-scoring engine of [pages/api/score.ts]

    A shallow embedding of the scoring API route: the rate limiter built on
    an LRU cache with a time to live, the keyword heuristics, the reading of
    the language model's reply, the composite score and the request handler
    that sequences them.

    Conventions of the embedding.
    - A JavaScript number is either [NaN] or a rational [Num q]: every finite
      double is a rational, and the arithmetic of the handler stays far from
      the precision of doubles.  The infinities are not represented; [clamp]
      sends them to an end of its range, as it sends a large rational.
    - A JavaScript string is a [string] of code units below 256.
    - [undefined] is [None] in the type [value]; a thrown exception is [None]
      in the result of a fallible step.
    - [Math.random], the clock, the reply of the language model and the
      outcome of the database insert are inputs of each request ([Env]).
    - [Math.log], [JSON.parse] and the string and array cases of [ToNumber]
      are platform functions, taken as a [Platform] record. *)

From Stdlib Require Import ZArith QArith Qround Qabs Bool List Ascii String Lia Lqa.
From Stdlib Require Import DecimalString.
Import ListNotations.

Set Warnings "-register-all".
Local Open Scope Z_scope.

(** ** JavaScript numbers and the [Math] functions the route uses *)

Module JS.

Inductive number : Type :=
| Num (q : Q)
| NaN.

Definition of_Z (z : Z) : number := Num (inject_Z z).

Definition lift2 (f : Q -> Q -> Q) (a b : number) : number :=
  match a, b with
  | Num x, Num y => Num (f x y)
  | _, _ => NaN
  end.

Definition add := lift2 Qplus.
Definition sub := lift2 Qminus.
Definition mul := lift2 Qmult.
(* Every division of the route has a non-zero literal as its divisor. *)
Definition div := lift2 Qdiv.

(* Math.round: the nearest integer, a tie going up. *)
Definition Math_round (a : number) : number :=
  match a with
  | Num x => of_Z (Qfloor (x + (1 # 2)))
  | NaN => NaN
  end.

Definition Math_floor (a : number) : number :=
  match a with
  | Num x => of_Z (Qfloor x)
  | NaN => NaN
  end.

(* Math.max and Math.min answer NaN as soon as one argument is NaN. *)
Definition Math_max (a b : number) : number :=
  match a, b with
  | Num x, Num y => if Qle_bool x y then Num y else Num x
  | _, _ => NaN
  end.

Definition Math_min (a b : number) : number :=
  match a, b with
  | Num x, Num y => if Qle_bool x y then Num x else Num y
  | _, _ => NaN
  end.

(* a >= b on numbers: false when either side is NaN. *)
Definition geb (a b : number) : bool :=
  match a, b with
  | Num x, Num y => Qle_bool y x
  | _, _ => false
  end.

(* The integer a number denotes, when it is one written as [of_Z]. *)
Definition as_integer (a : number) : option Z :=
  match a with
  | Num (Qmake n 1) => Some n
  | _ => None
  end.

(* An integer lying in [lo, hi]. *)
Definition in_range (lo hi : Z) (a : number) : bool :=
  match as_integer a with
  | Some z => (lo <=? z) && (z <=? hi)
  | None => false
  end.

Definition le (a b : number) : Prop :=
  match a, b with
  | Num x, Num y => (x <= y)%Q
  | _, _ => False
  end.

Definition is_NaN (a : number) : bool :=
  match a with NaN => true | Num _ => false end.

(** JSON values, as [JSON.parse] and the body parser produce them.  An
    object lists its own properties, one pair per key. *)
Inductive json : Type :=
| JNull
| JBool (b : bool)
| JNum (q : Q)
| JStr (s : string)
| JArr (l : list json)
| JObj (fields : list (string * json)).

(* A JavaScript value read out of such data: [None] is undefined. *)
Definition value : Type := option json.
Definition undefined : value := None.

Fixpoint lookup (k : string) (fields : list (string * json)) : value :=
  match fields with
  | [] => None
  | (k', v) :: rest => if String.eqb k k' then Some v else lookup k rest
  end.

(* Property read [v.k] for the names the route reads ("0" is the index of
   [choices[0]]); the outer [None] is the TypeError of reading a property
   of null or undefined. *)
Definition get_prop (v : value) (k : string) : option value :=
  match v with
  | None => None
  | Some JNull => None
  | Some (JObj fields) => Some (lookup k fields)
  | Some (JArr l) =>
      if String.eqb k "0" then Some (nth_error l 0) else Some None
  | Some (JStr s) =>
      if String.eqb k "0"
      then Some (match s with
                 | EmptyString => None
                 | String c _ => Some (JStr (String c EmptyString))
                 end)
      else Some None
  | Some (JBool _) | Some (JNum _) => Some None
  end.

(* ToBoolean: undefined, null, false, 0 and the empty string are falsy. *)
Definition truthy (v : value) : bool :=
  match v with
  | None => false
  | Some JNull => false
  | Some (JBool b) => b
  | Some (JNum q) => negb (Qeq_bool q 0)
  | Some (JStr s) => negb (String.eqb s "")
  | Some (JArr _) | Some (JObj _) => true
  end.

End JS.

(** ** Strings: the methods of [String.prototype] the route calls *)

Module Str.

Local Open Scope string_scope.

Definition code (c : ascii) : nat := nat_of_ascii c.

(* White space of [trim] and of the class [\s], among the code units below
   256: tab, line feed, vertical tab, form feed, carriage return, space and
   the no-break space. *)
Definition is_space (c : ascii) : bool :=
  let n := code c in
  ((9 <=? n) && (n <=? 13) || (n =? 32) || (n =? 160))%nat.

(* toLowerCase on one code unit: A-Z, and the capital letters of Latin-1. *)
Definition lower_char (c : ascii) : ascii :=
  let n := code c in
  if ((65 <=? n) && (n <=? 90)
      || (192 <=? n) && (n <=? 222) && negb (n =? 215))%nat
  then ascii_of_nat (n + 32)
  else c.

Fixpoint toLowerCase (s : string) : string :=
  match s with
  | EmptyString => EmptyString
  | String c r => String (lower_char c) (toLowerCase r)
  end.

Fixpoint trimStart (s : string) : string :=
  match s with
  | EmptyString => EmptyString
  | String c r => if is_space c then trimStart r else s
  end.

(* The string without its trailing white space. *)
Fixpoint trimEnd (s : string) : string :=
  match s with
  | EmptyString => EmptyString
  | String c r =>
      match trimEnd r with
      | EmptyString => if is_space c then EmptyString else String c EmptyString
      | r' => String c r'
      end
  end.

Definition trim (s : string) : string := trimEnd (trimStart s).

(* s.split(sep) for a separator of one code unit. *)
Fixpoint split_char (sep : ascii) (s : string) : list string :=
  match s with
  | EmptyString => [EmptyString]
  | String c r =>
      if Ascii.eqb c sep then EmptyString :: split_char sep r
      else match split_char sep r with
           | [] => [String c EmptyString]
           | w :: ws => String c w :: ws
           end
  end.

(* s.split(/\s+/): [in_gap] tells that the previous code unit was white
   space, so that a run of white space separates once. *)
Fixpoint split_ws_from (in_gap : bool) (s : string) : list string :=
  match s with
  | EmptyString => [EmptyString]
  | String c r =>
      if is_space c
      then (if in_gap then split_ws_from true r
            else EmptyString :: split_ws_from true r)
      else match split_ws_from false r with
           | [] => [String c EmptyString]
           | w :: ws => String c w :: ws
           end
  end.

Definition split_ws (s : string) : list string := split_ws_from false s.

Fixpoint starts_with (p s : string) : bool :=
  match p, s with
  | EmptyString, _ => true
  | String a p', String b s' => Ascii.eqb a b && starts_with p' s'
  | String _ _, EmptyString => false
  end.

(* Two code units that a regular expression with the flag [i] takes for
   the same: among the code units below 256 these are the ones with the same
   lower case. *)
Definition same_letter (a b : ascii) : bool :=
  Ascii.eqb (lower_char a) (lower_char b).

(* The literal [p] matches at the start of [s], whatever the case. *)
Fixpoint starts_with_i (p s : string) : bool :=
  match p, s with
  | EmptyString, _ => true
  | String a p', String b s' => same_letter a b && starts_with_i p' s'
  | String _ _, EmptyString => false
  end.

(* The number of matches of a regular expression with the flags [g] and [i]
   that is the literal [kw]: occurrences are found from left to right,
   whatever the case, and do not overlap, so a match of length n is followed
   by a skip of n - 1 further code units.  The empty pattern matches once at
   every position, the end of the text included. *)
Fixpoint count_from (kw : string) (skip : nat) (s : string) : nat :=
  match s with
  | EmptyString => match kw with EmptyString => 1 | String _ _ => 0 end
  | String _ r =>
      match skip with
      | S k => count_from kw k r
      | O =>
          if starts_with_i kw s
          then S (count_from kw (Nat.pred (String.length kw)) r)
          else count_from kw 0 r
      end
  end.

Definition count_occurrences (kw s : string) : nat := count_from kw 0 s.

(* s.replace(/```json|```/g, ""): at each position the longer alternative
   is tried first. *)
Definition fence : string := "```".
Definition fence_json : string := "```json".

Fixpoint strip_fences_from (skip : nat) (s : string) : string :=
  match s with
  | EmptyString => EmptyString
  | String c r =>
      match skip with
      | S k => strip_fences_from k r
      | O =>
          if starts_with fence_json s then strip_fences_from 6 r
          else if starts_with fence s then strip_fences_from 2 r
          else String c (strip_fences_from 0 r)
      end
  end.

Definition strip_fences (s : string) : string := strip_fences_from 0 s.

End Str.

(** ** The cache of the [lru-cache] package, as the route configures it

    [new LRUCache({ max: 500, ttl: 1000 * 60 * 60 })].  The entries are kept
    from the most recently used to the least recently used.  An entry is
    stale once more than [ttl] milliseconds have passed since it was set,
    unless it was set while the clock read 0;
    [get] forgets a stale entry and answers undefined.  [set] on a full
    cache evicts the least recently used entry. *)

Module LRU.

Record entry : Type := mkEntry {
  key : string;
  val : Z;
  start : Z          (* the time of the set, in milliseconds *)
}.

Definition cache : Type := list entry.

Definition max : nat := 500.
Definition ttl : Z := 1000 * 60 * 60.

Definition empty : cache := [].

(* An entry whose start reads 0 is never stale: the package takes a start of
   0 for the absence of one. *)
Definition isStale (now : Z) (e : entry) : bool :=
  negb (start e =? 0) && (ttl <? now - start e).

Fixpoint find (k : string) (c : cache) : option entry :=
  match c with
  | [] => None
  | e :: rest => if String.eqb k (key e) then Some e else find k rest
  end.

Fixpoint delete (k : string) (c : cache) : cache :=
  match c with
  | [] => []
  | e :: rest => if String.eqb k (key e) then delete k rest
                 else e :: delete k rest
  end.

(* cache.get(k): the value and the cache afterwards. *)
Definition get (now : Z) (c : cache) (k : string) : option Z * cache :=
  match find k c with
  | None => (None, c)
  | Some e =>
      if isStale now e then (None, delete k c)
      else (Some (val e), e :: delete k c)
  end.

(* cache.set(k, v) *)
Definition set (now : Z) (c : cache) (k : string) (v : Z) : cache :=
  match find k c with
  | Some _ => mkEntry k v now :: delete k c
  | None =>
      let kept := if (max <=? List.length c)%nat then removelast c else c in
      mkEntry k v now :: kept
  end.

(* The count the cache holds for a key, stale or not. *)
Definition stored (c : cache) (k : string) : option Z :=
  option_map val (find k c).

Definition keys (c : cache) : list string := map key c.

End LRU.

(** ** The rate limiter *)

Module RateLimiter.

Definition REQUESTS_PER_HOUR : Z := 5.

Record verdict : Type := mkVerdict { allowed : bool; remaining : Z }.

(* getRateLimit(ip), at time [now] on the cache [c] *)
Definition getRateLimit (now : Z) (c : LRU.cache) (ip : string)
  : verdict * LRU.cache :=
  let '(found, c1) := LRU.get now c ip in
  let current := match found with Some n => n | None => 0 end in
  if REQUESTS_PER_HOUR <=? current
  then (mkVerdict false 0, c1)
  else (mkVerdict true (REQUESTS_PER_HOUR - (current + 1)),
        LRU.set now c1 ip (current + 1)).

(* A sequence of checks, each with its time and its identity. *)
Fixpoint run (calls : list (Z * string)) (c : LRU.cache)
  : list verdict * LRU.cache :=
  match calls with
  | [] => ([], c)
  | (now, ip) :: rest =>
      let '(v, c1) := getRateLimit now c ip in
      let '(vs, c2) := run rest c1 in
      (v :: vs, c2)
  end.

End RateLimiter.

(** ** The platform and the inputs of a request *)

Module Engine.

Import JS.
Local Open Scope string_scope.

(** Functions of the JavaScript platform that the route calls and that are
    not part of it.  [Math_log] is only ever applied to [hits * ramp] with
    [hits >= 1] and [ramp >= 2], where its result is a finite double.
    [JSON_parse] answers [None] when [JSON.parse] throws.  [StringToNumber]
    and [ArrayToNumber] are the cases of [ToNumber] for a string and for an
    array; the latter answers [None] when the conversion throws. *)
Record Platform : Type := mkPlatform {
  Math_log : Q -> Q;
  JSON_parse : string -> option json;
  StringToNumber : string -> number;
  ArrayToNumber : list json -> option number
}.

(* The future results of Math.random(), as numerators over 2^53. *)
Definition rng : Type := nat -> Z.

Definition two53 : positive := 9007199254740992.

(* Math.random(): a number in [0, 1), and the generator afterwards. *)
Definition Math_random (g : rng) : number * rng :=
  (Num (Qmake (g O mod Zpos two53) two53), fun i => g (S i)).

(* ToNumber, as Math.round applies it to its argument.  An object converts
   through toString: a parsed object that has an own property of that name
   (never callable) throws, any other gives NaN. *)
Definition ToNumber (P : Platform) (v : value) : option number :=
  match v with
  | None => Some NaN
  | Some JNull => Some (of_Z 0)
  | Some (JBool b) => Some (of_Z (if b then 1 else 0))
  | Some (JNum q) => Some (Num q)
  | Some (JStr s) => Some (StringToNumber P s)
  | Some (JArr l) => ArrayToNumber P l
  | Some (JObj fields) =>
      match lookup "toString" fields with
      | Some _ => None
      | None => Some NaN
      end
  end.

(** ** Keyword lists *)

Definition AI_KEYWORDS : list string := [
  "ai"; "artificial intelligence"; "machine learning"; "ml"; "llm"; "gpt";
  "neural"; "deep learning"; "nlp"; "computer vision"; "generative"; "agent";
  "autonomous"; "copilot"; "chatbot"; "embedding"; "vector"; "diffusion";
  "transformer"; "fine-tun"; "rag"; "multimodal"
].

Definition BUZZWORDS : list string := [
  "blockchain"; "web3"; "nft"; "crypto"; "metaverse"; "defi"; "dao";
  "disrupt"; "disruption"; "10x"; "100x"; "democratize"; "revolutionize";
  "paradigm"; "synergy"; "ecosystem"; "scalable"; "scale"; "platform";
  "network effect"; "frictionless"; "seamless"; "uber for"; "airbnb for";
  "tinder for"; "future of"; "next generation"; "next-gen"; "world-class";
  "best-in-class"; "end-to-end"; "full-stack"; "holistic"; "leverage";
  "ideate"; "pivot"; "mvp"; "b2b"; "b2c"; "saas"; "paas"
].

Definition CRINGE_PHRASES : list string := [
  "change the world"; "make the world a better place"; "passionate";
  "on a mission"; "we believe"; "i believe"; "journey"; "space";
  "in the x space"; "the x space"; "move fast"; "hustle"; "grind";
  "thought leader"; "serial entrepreneur"; "visionary"; "disrupting the";
  "pain point"; "game changer"; "game-changer"; "low-hanging fruit";
  "move the needle"; "circle back"; "deep dive"; "at the end of the day";
  "skin in the game"; "fail fast"; "growth hacking"; "north star";
  "bleeding edge"; "cutting edge"; "first principles"
].

(** ** Scoring helpers *)

(* countMatches(text, keywords): each keyword is escaped into a literal
   pattern and matched globally, whatever the case, against the lowered
   text. *)
Definition countMatches (text : string) (keywords : list string) : nat :=
  let lower := Str.toLowerCase text in
  fold_left (fun count kw => (count + Str.count_occurrences kw lower)%nat)
            keywords 0%nat.

(* clamp(val, min, max); the route passes min = 0 and max = 100 unless it
   says otherwise. *)
Definition clamp (val min max : number) : number :=
  Math_min (Math_max (Math_round val) min) max.

Definition n0 : number := of_Z 0.
Definition n100 : number := of_Z 100.

(* Math.floor(Math.random() * 14) - 7 *)
Definition jitter_of (r : number) : number :=
  sub (Math_floor (mul r (of_Z 14))) (of_Z 7).

Definition of_nat (n : nat) : number := of_Z (Z.of_nat n).

(* The value of [base] in scoreFromHits, for hits > 0. *)
Definition ramp_base (P : Platform) (hits : nat) (ramp : Q) : number :=
  Math_min n100
    (Math_round
       (add (of_Z 65)
            (mul (of_Z 22)
                 (Num (Math_log P (inject_Z (Z.of_nat hits) * ramp)))))).

(* scoreFromHits(hits, ramp) *)
Definition scoreFromHits (P : Platform) (hits : nat) (ramp : Q) (g : rng)
  : number * rng :=
  let '(r, g1) := Math_random g in
  let jitter := jitter_of r in
  if Nat.eqb hits 0 then (clamp (add (of_Z 60) jitter) n0 n100, g1)
  else
    let base := ramp_base P hits ramp in
    (clamp (add base jitter) n0 n100, g1).

(* What scoreFromHits adds its jitter to: 60 without a hit, [base] with. *)
Definition pre_jitter_base (P : Platform) (hits : nat) (ramp : Q) : number :=
  if Nat.eqb hits 0 then of_Z 60 else ramp_base P hits ramp.

(* The three ramps the handler passes. *)
Definition ramp_ai : Q := 5 # 2.
Definition ramp_buzz : Q := 2 # 1.
Definition ramp_cringe : Q := 3 # 1.

Record Heuristics : Type := mkHeuristics {
  h_ai_hype_beast : number;
  h_buzzword_density : number;
  h_cringe_founder_energy : number;
  h_market_viability : number;
  h_pivot_to_ai_probability : number
}.

(* clamp(lo + Math.floor(Math.random() * width)) *)
Definition pivot_draw (lo width : Z) (g : rng) : number * rng :=
  let '(r, g1) := Math_random g in
  (clamp (add (of_Z lo) (Math_floor (mul r (of_Z width)))) n0 n100, g1).

(* Sections 1 to 5 of the handler: the five heuristic metrics of an idea. *)
Definition heuristics (P : Platform) (idea : string) (g : rng)
  : Heuristics * rng :=
  let wordCount := List.length (Str.split_ws (Str.trim idea)) in
  let aiHits := countMatches idea AI_KEYWORDS in
  let '(ai_hype_beast, g1) := scoreFromHits P aiHits ramp_ai g in
  let buzzHits := countMatches idea BUZZWORDS in
  let '(buzzRaw, g2) := scoreFromHits P buzzHits ramp_buzz g1 in
  let buzzword_density := clamp buzzRaw n0 n100 in
  let cringeHits := countMatches idea CRINGE_PHRASES in
  let '(cringe_founder_energy, g3) := scoreFromHits P cringeHits ramp_cringe g2 in
  let specificityBonus :=
    Math_min (div (of_nat wordCount) (Num (12 # 10))) (of_Z 30) in
  let hypePenalty :=
    Math_round (div (add ai_hype_beast buzzword_density) (of_Z 14)) in
  let marketBase := sub (add (of_Z 55) specificityBonus) hypePenalty in
  let '(r, g4) := Math_random g3 in
  let jitter := jitter_of r in
  let market_viability := clamp (add marketBase jitter) n0 n100 in
  let '(pivot_to_ai_probability, g5) :=
    if geb ai_hype_beast (of_Z 60) then pivot_draw 55 20 g4
    else if geb buzzword_density (of_Z 50) then pivot_draw 82 15 g4
    else if geb market_viability (of_Z 55) then pivot_draw 70 20 g4
    else pivot_draw 65 25 g4 in
  (mkHeuristics ai_hype_beast buzzword_density cringe_founder_energy
                market_viability pivot_to_ai_probability, g5).

(** ** The request, the response and the state the route touches *)

Record Request : Type := mkRequest {
  method : string;
  x_forwarded_for : option string;     (* req.headers["x-forwarded-for"] *)
  remoteAddress : option string;       (* req.socket.remoteAddress *)
  body : value                         (* req.body *)
}.

Record ScoreResponse : Type := mkScoreResponse {
  ai_hype_beast : number;
  buzzword_density : number;
  cringe_founder_energy : number;
  market_viability : number;
  pivot_to_ai_probability : number;
  yc_bait_score : number;
  delusion_index : number;
  founder_rank : value;
  goblin_verdict : value;
  composite_score : number
}.

(* What the handler answers.  [Uncaught] is an exception thrown outside the
   try block, which the handler itself does not turn into a response. *)
Inductive Response : Type :=
| MethodNotAllowed                     (* 405 *)
| TooManyRequests                      (* 429 *)
| MissingIdea                          (* 400 *)
| LLMRequestFailed                     (* 500, "LLM request failed" *)
| InternalServerError                  (* 500, from the catch clause *)
| Ok (result : ScoreResponse)          (* 200 *)
| Uncaught.

Definition status (r : Response) : option Z :=
  match r with
  | MethodNotAllowed => Some 405
  | TooManyRequests => Some 429
  | MissingIdea => Some 400
  | LLMRequestFailed | InternalServerError => Some 500
  | Ok _ => Some 200
  | Uncaught => None
  end.

Record ScoreRow : Type := mkScoreRow {
  row_idea_id : value;
  row_user_id : value;
  row_scores : ScoreResponse
}.

(* The module-level cache, the scores table and the number of requests sent
   to the language model. *)
Record World : Type := mkWorld {
  rateLimiter : LRU.cache;
  scores : list ScoreRow;
  llm_calls : nat
}.

Definition initial : World := mkWorld LRU.empty [] 0.

(* What [await fetch(...)] and the reading of its response come to. *)
Inductive FetchOutcome : Type :=
| FetchRejects                         (* fetch throws *)
| FetchNotOk (text : option string)    (* !response.ok; None: text() throws *)
| FetchOk (data : option json).        (* None: response.json() throws *)

Record Env : Type := mkEnv {
  now : Z;
  random : rng;
  llm : FetchOutcome;
  insert_error : bool
}.

(** A step of the try block: it may change the world and it may throw, and
    the world a throwing step leaves behind stays. *)
Definition Try (A : Type) : Type := World -> option A * World.

Definition ret {A} (a : A) : Try A := fun w => (Some a, w).
Definition throw {A} : Try A := fun w => (None, w).
Definition bind {A B} (m : Try A) (f : A -> Try B) : Try B :=
  fun w => match m w with
           | (Some a, w1) => f a w1
           | (None, w1) => (None, w1)
           end.
Definition lift {A} (o : option A) : Try A :=
  match o with Some a => ret a | None => throw end.

Notation "x <- m ;; k" := (bind m (fun x => k))
  (at level 61, m at next level, right associativity).

(* The receiver of a string method: calling it on anything else throws. *)
Definition as_string (v : value) : option string :=
  match v with
  | Some (JStr s) => Some s
  | _ => None
  end.

Definition call_llm (env : Env) : Try FetchOutcome :=
  fun w => (match llm env with
            | FetchRejects => None
            | o => Some o
            end,
            mkWorld (rateLimiter w) (scores w) (S (llm_calls w))).

Definition insert_score (env : Env) (r : ScoreRow) : Try unit :=
  fun w => (Some tt,
            if insert_error env then w
            else mkWorld (rateLimiter w) (scores w ++ [r]) (llm_calls w)).

(* The composite score: clamp(Math.round((sum of the seven) / 7)). *)
Definition composite (a b c d e f g : number) : number :=
  clamp (Math_round
           (div (add (add (add (add (add (add a b) c) d) e) f) g) (of_Z 7)))
        n0 n100.

(* The ip of the handler. *)
Definition client_ip (req : Request) : string :=
  match x_forwarded_for req with
  | Some h => Str.trim (hd "" (Str.split_char "," h))
  | None =>
      match remoteAddress req with
      | Some a => a
      | None => "unknown"
      end
  end.

(* data.choices[0].message.content, as the receiver of [replace]: any
   missing link of the chain, or a content that is not a string, throws. *)
Definition message_content (data : json) : option string :=
  match get_prop (Some data) "choices" with
  | Some choices =>
      match get_prop choices "0" with
      | Some choice =>
          match get_prop choice "message" with
          | Some message =>
              match get_prop message "content" with
              | Some content => as_string content
              | None => None
              end
          | None => None
          end
      | None => None
      end
  | None => None
  end.

(* JSON.parse(content.replace(/```json|```/g, "").trim()) *)
Definition parse_reply (P : Platform) (content : string) : option json :=
  let cleaned := Str.trim (Str.strip_fences content) in
  JSON_parse P cleaned.

(* The body of the try block. *)
Definition try_block (P : Platform) (env : Env) (idea idea_id user_id : value)
  : Try Response :=
  text <- lift (as_string idea) ;;
  let '(h, _) := heuristics P text (random env) in
  response <- call_llm env ;;
  match response with
  | FetchRejects => throw
  | FetchNotOk text => _ <- lift text ;; ret LLMRequestFailed
  | FetchOk data =>
      data <- lift data ;;
      content <- lift (message_content data) ;;
      llmJson <- lift (parse_reply P content) ;;
      yc <- lift (get_prop (Some llmJson) "yc_bait_score") ;;
      yc <- lift (ToNumber P yc) ;;
      let yc_bait_score := clamp yc n0 n100 in
      di <- lift (get_prop (Some llmJson) "delusion_index") ;;
      di <- lift (ToNumber P di) ;;
      let delusion_index := clamp di (of_Z 55) n100 in
      let composite_score :=
        composite (h_ai_hype_beast h) (h_buzzword_density h)
                  (h_cringe_founder_energy h) (h_market_viability h)
                  (h_pivot_to_ai_probability h) yc_bait_score delusion_index in
      rank <- lift (get_prop (Some llmJson) "founder_rank") ;;
      verdict <- lift (get_prop (Some llmJson) "goblin_verdict") ;;
      let result :=
        mkScoreResponse (h_ai_hype_beast h) (h_buzzword_density h)
          (h_cringe_founder_energy h) (h_market_viability h)
          (h_pivot_to_ai_probability h) yc_bait_score delusion_index
          rank verdict composite_score in
      _ <- (if truthy idea_id && truthy user_id
            then insert_score env (mkScoreRow idea_id user_id result)
            else ret tt) ;;
      ret (Ok result)
  end.

(* handler(req, res) *)
Definition handler (P : Platform) (env : Env) (req : Request) (w : World)
  : Response * World :=
  if negb (String.eqb (method req) "POST") then (MethodNotAllowed, w)
  else
    let ip := client_ip req in
    let '(v, c1) := RateLimiter.getRateLimit (now env) (rateLimiter w) ip in
    let w1 := mkWorld c1 (scores w) (llm_calls w) in
    if negb (RateLimiter.allowed v) then (TooManyRequests, w1)
    else
      match get_prop (body req) "idea",
            get_prop (body req) "idea_id",
            get_prop (body req) "user_id" with
      | Some idea, Some idea_id, Some user_id =>
          if negb (truthy idea) then (MissingIdea, w1)
          else
            match try_block P env idea idea_id user_id w1 with
            | (Some r, w2) => (r, w2)
            | (None, w2) => (InternalServerError, w2)
            end
      | _, _, _ => (Uncaught, w1)
      end.

(* A sequence of requests, each with its inputs. *)
Fixpoint serve (P : Platform) (reqs : list (Env * Request)) (w : World)
  : list Response * World :=
  match reqs with
  | [] => ([], w)
  | (env, req) :: rest =>
      let '(r, w1) := handler P env req w in
      let '(rs, w2) := serve P rest w1 in
      (r :: rs, w2)
  end.

End Engine.

(** ** A concrete platform, to run the model on examples *)

Module Sample.

Import JS Engine.
Local Open Scope string_scope.

(* A coarse rational stand-in for the natural logarithm: ln 2 times the
   integer part of log2 (x^32), over 32. *)
Definition sq (x : Q) : Q := x * x.

Definition log_approx (x : Q) : Q :=
  inject_Z (Z.log2 (Qfloor (sq (sq (sq (sq (sq x))))))) * (6931 # 320000).

(* A parser known by the finite table of the texts it has to read. *)
Fixpoint parse_table (table : list (string * json)) (s : string)
  : option json :=
  match table with
  | [] => None
  | (t, v) :: rest => if String.eqb s t then Some v else parse_table rest s
  end.

Definition platform (table : list (string * json)) : Platform :=
  mkPlatform log_approx (parse_table table) (fun _ => NaN) (fun _ => None).

(* A generator that repeats one raw draw. *)
Definition constant_rng (z : Z) : rng := fun _ => z.

(* The double quote, and a quoted word. *)
Definition dq : string := String "034"%char EmptyString.
Definition quoted (s : string) : string := dq ++ s ++ dq.

(* The body of a completion whose only choice has this content. *)
Definition completion (content : string) : json :=
  JObj [("choices", JArr [JObj [("message", JObj [("content", JStr content)])]])].

Definition post (idea : string) : Request :=
  mkRequest "POST" None None (Some (JObj [("idea", JStr idea)])).

Definition field (name text : string) : string := quoted name ++ ":" ++ text.

(* A reply that leaves yc_bait_score out, and what JSON.parse makes of it. *)
Definition reply_without_yc : string :=
  "{" ++ field "delusion_index" "80" ++ ","
      ++ field "founder_rank" (quoted "Chad") ++ ","
      ++ field "goblin_verdict" (quoted "Juicero for dogs.") ++ "}".

Definition parsed_without_yc : json :=
  JObj [("delusion_index", JNum 80); ("founder_rank", JStr "Chad");
        ("goblin_verdict", JStr "Juicero for dogs.")].

(* A complete reply whose rank is none of the four labels. *)
Definition reply_sigma : string :=
  "{" ++ field "yc_bait_score" "70" ++ ","
      ++ field "delusion_index" "80" ++ ","
      ++ field "founder_rank" (quoted "Sigma") ++ ","
      ++ field "goblin_verdict" (quoted "Juicero for dogs.") ++ "}".

Definition parsed_sigma : json :=
  JObj [("yc_bait_score", JNum 70); ("delusion_index", JNum 80);
        ("founder_rank", JStr "Sigma");
        ("goblin_verdict", JStr "Juicero for dogs.")].

(* A complete reply with one of the four labels. *)
Definition reply_chad : string :=
  "{" ++ field "yc_bait_score" "70" ++ ","
      ++ field "delusion_index" "80" ++ ","
      ++ field "founder_rank" (quoted "Chad") ++ ","
      ++ field "goblin_verdict" (quoted "Juicero for dogs.") ++ "}".

Definition parsed_chad : json :=
  JObj [("yc_bait_score", JNum 70); ("delusion_index", JNum 80);
        ("founder_rank", JStr "Chad");
        ("goblin_verdict", JStr "Juicero for dogs.")].

(* A reply with the two numbers and neither rank nor verdict. *)
Definition reply_numbers_only : string :=
  "{" ++ field "yc_bait_score" "70" ++ ","
      ++ field "delusion_index" "80" ++ "}".

Definition parsed_numbers_only : json :=
  JObj [("yc_bait_score", JNum 70); ("delusion_index", JNum 80)].

Definition replies : list (string * json) :=
  [(reply_without_yc, parsed_without_yc); (reply_sigma, parsed_sigma);
   (reply_chad, parsed_chad); (reply_numbers_only, parsed_numbers_only);
   ("{}", JObj [])].

(* The platform that reads these replies, and a request environment at time
   [t] in which the model answers with [content]. *)
Definition sample : Platform := platform replies.

Definition answering (t : Z) (content : string) : Env :=
  mkEnv t (constant_rng 0) (FetchOk (Some (completion content))) false.

End Sample.

(** ** The model on small inputs *)

Module Examples.

Import JS Engine Sample.
Local Open Scope string_scope.

Example trim_spaces : Str.trim "  ab c  " = "ab c".
Proof. reflexivity. Qed.

Example split_words : Str.split_ws "ab   c d" = ["ab"; "c"; "d"].
Proof. reflexivity. Qed.

Example split_empty : List.length (Str.split_ws (Str.trim "   ")) = 1%nat.
Proof. reflexivity. Qed.

Example first_forwarded : client_ip
  (mkRequest "POST" (Some "203.0.113.7, 10.0.0.1") (Some "10.0.0.2") None)
  = "203.0.113.7".
Proof. reflexivity. Qed.

Example matches_do_not_overlap : Str.count_occurrences "aa" "aaaaa" = 2%nat.
Proof. reflexivity. Qed.

Example ai_hits : countMatches "AI-powered AI agent for AI" AI_KEYWORDS = 4%nat.
Proof. reflexivity. Qed.

Example fences_stripped : Str.trim (Str.strip_fences "```json {} ```") = "{}".
Proof. reflexivity. Qed.

Example clamp_half_up : clamp (Num (145 # 2)) n0 n100 = of_Z 73.
Proof. reflexivity. Qed.

Example clamp_floor : clamp (of_Z 12) (of_Z 55) n100 = of_Z 55.
Proof. reflexivity. Qed.

Example clamp_undefined : option_map (fun v => clamp v n0 n100)
                            (ToNumber sample undefined) = Some NaN.
Proof. reflexivity. Qed.

Example one_buzzword :
  fst (scoreFromHits sample 1 ramp_buzz (constant_rng 0)) = of_Z 73.
Proof. vm_compute. reflexivity. Qed.

Example a_full_request :
  fst (handler sample (answering 0 reply_chad) (post "Uber for dogs") initial)
  = Ok (mkScoreResponse (of_Z 53) (of_Z 73) (of_Z 53) (of_Z 42) (of_Z 82)
          (of_Z 70) (of_Z 80) (Some (JStr "Chad"))
          (Some (JStr "Juicero for dogs.")) (of_Z 65)).
Proof. vm_compute. reflexivity. Qed.

End Examples.

(** * Properties of the cache and of the rate limiter *)

Module LRUFacts.

Import LRU.

Lemma find_delete_same k c : find k (delete k c) = None.
Proof.
  induction c as [|e c IH]; simpl; [reflexivity|].
  destruct (String.eqb k (key e)) eqn:E; simpl; [assumption|].
  rewrite E. assumption.
Qed.

Lemma delete_absent k c : find k c = None -> delete k c = c.
Proof.
  induction c as [|e c IH]; simpl; [reflexivity|].
  destruct (String.eqb k (key e)); [discriminate|].
  intros H. rewrite (IH H). reflexivity.
Qed.

Lemma find_In k c e : find k c = Some e -> In e c /\ key e = k.
Proof.
  induction c as [|e' c IH]; simpl; [discriminate|].
  destruct (String.eqb_spec k (key e')) as [->|_].
  - intros [= ->]. auto.
  - intros H. destruct (IH H). auto.
Qed.

Lemma In_delete k c e : In e (delete k c) -> In e c.
Proof.
  induction c as [|e' c IH]; simpl; [tauto|].
  destruct (String.eqb k (key e')); simpl; intuition.
Qed.

Lemma In_removelast (c : cache) e : In e (removelast c) -> In e c.
Proof.
  induction c as [|e' c IH]; [tauto|].
  destruct c as [|e'' c]; [simpl; tauto|].
  change (removelast (e' :: e'' :: c)) with (e' :: removelast (e'' :: c)).
  intros [->|H]; [left; reflexivity|right; auto].
Qed.

Lemma find_removelast k (c : cache) :
  find k c = None -> find k (removelast c) = None.
Proof.
  induction c as [|e c IH]; [reflexivity|].
  destruct c as [|e' c]; [reflexivity|].
  change (removelast (e :: e' :: c)) with (e :: removelast (e' :: c)).
  cbn [find]. destruct (String.eqb k (key e)); [discriminate|].
  exact IH.
Qed.

(* An entry is fresh for an hour after it was set; past the hour it is stale
   unless its start reads 0. *)
Lemma isStale_within now e : now - start e <= ttl -> isStale now e = false.
Proof.
  intros H. unfold isStale.
  destruct (Z.ltb_spec ttl (now - start e)); [lia|apply andb_false_r].
Qed.


Lemma isStale_false now e :
  isStale now e = false <-> start e = 0 \/ now - start e <= ttl.
Proof.
  unfold isStale. rewrite andb_false_iff, negb_false_iff, Z.eqb_eq, Z.ltb_ge.
  reflexivity.
Qed.

(* Every entry of the cache satisfies Q. *)
Section Preservation.
Variable Q : entry -> Prop.

Lemma get_preserves now c k :
  Forall Q c -> Forall Q (snd (get now c k)).
Proof.
  intros H. unfold get. destruct (find k c) as [e|] eqn:F; [|exact H].
  rewrite Forall_forall in H.
  destruct (isStale now e); simpl; rewrite Forall_forall.
  - intros x Hx. apply H. eapply In_delete; eassumption.
  - intros x [<-|Hx].
    + apply H. apply (find_In _ _ _ F).
    + apply H. eapply In_delete; eassumption.
Qed.

Lemma set_preserves now c k v :
  Q (mkEntry k v now) -> Forall Q c -> Forall Q (set now c k v).
Proof.
  intros Hq H. unfold set. rewrite Forall_forall in H.
  destruct (find k c); constructor; try assumption;
    rewrite Forall_forall; intros x Hx; apply H.
  - eapply In_delete; eassumption.
  - destruct (max <=? List.length c)%nat; [apply In_removelast|]; assumption.
Qed.
End Preservation.

(* What get answers for a key, without the change of the cache. *)
Lemma get_fst now c k :
  fst (get now c k) =
  match find k c with
  | Some e => if isStale now e then None else Some (val e)
  | None => None
  end.
Proof.
  unfold get. destruct (find k c) as [e|]; [|reflexivity].
  destruct (isStale now e); reflexivity.
Qed.

(* After get has answered undefined, the key is not in the cache. *)
Lemma get_None_absent now c k :
  fst (get now c k) = None -> find k (snd (get now c k)) = None.
Proof.
  unfold get. destruct (find k c) as [e|] eqn:F; [|intros _; exact F].
  destruct (isStale now e); simpl; [|discriminate].
  intros _. apply find_delete_same.
Qed.

End LRUFacts.

Module RateLimiterFacts.

Import LRU RateLimiter LRUFacts.

(* The stored counts stay between 1 and the threshold. *)
Definition count_ok (e : entry) : Prop := 1 <= val e <= REQUESTS_PER_HOUR.

Lemma getRateLimit_preserves now c ip :
  Forall count_ok c -> Forall count_ok (snd (getRateLimit now c ip)).
Proof.
  intros H. unfold getRateLimit.
  pose proof (get_preserves count_ok now c ip H) as Hg.
  pose proof (get_fst now c ip) as Hf.
  destruct (get now c ip) as [found c1]. simpl in Hg, Hf.
  assert (Hcur : 0 <= match found with Some n => n | None => 0 end).
  { subst found. destruct (find ip c) as [e|] eqn:F; [|lia].
    destruct (isStale now e); [lia|].
    rewrite Forall_forall in H.
    pose proof (H e (proj1 (find_In _ _ _ F))) as He. unfold count_ok in He. lia. }
  destruct (Z.leb_spec REQUESTS_PER_HOUR
              (match found with Some n => n | None => 0 end)); simpl.
  - exact Hg.
  - apply set_preserves; [|exact Hg]. unfold count_ok. simpl. lia.
Qed.

Lemma run_preserves calls : forall c,
  Forall count_ok c -> Forall count_ok (snd (run calls c)).
Proof.
  induction calls as [|[now ip] rest IH]; intros c H; simpl; [exact H|].
  pose proof (getRateLimit_preserves now c ip H) as H1.
  destruct (getRateLimit now c ip) as [v c1]. simpl in H1.
  specialize (IH c1 H1). destruct (run rest c1) as [vs c2]. exact IH.
Qed.

(* The three cases of a check on an identity. *)
Lemma getRateLimit_fresh now c ip :
  fst (get now c ip) = None ->
  exists tl, find ip tl = None /\
    getRateLimit now c ip = (mkVerdict true 4, mkEntry ip 1 now :: tl).
Proof.
  intros H. unfold getRateLimit.
  pose proof (get_None_absent now c ip H) as Ha.
  destruct (get now c ip) as [found c1]. simpl in H, Ha. subst found.
  simpl. unfold set. rewrite Ha.
  eexists. split; [|reflexivity].
  destruct (max <=? List.length c1)%nat; [apply find_removelast|]; exact Ha.
Qed.

Lemma get_head now ip n s tl :
  find ip tl = None -> now - s <= ttl ->
  get now (mkEntry ip n s :: tl) ip = (Some n, mkEntry ip n s :: tl).
Proof.
  intros Ha Ht. unfold get. simpl. rewrite String.eqb_refl.
  rewrite isStale_within by exact Ht.
  rewrite (delete_absent _ _ Ha). reflexivity.
Qed.

Lemma getRateLimit_counting now ip n s tl :
  find ip tl = None -> now - s <= ttl -> n < REQUESTS_PER_HOUR ->
  getRateLimit now (mkEntry ip n s :: tl) ip =
  (mkVerdict true (REQUESTS_PER_HOUR - (n + 1)), mkEntry ip (n + 1) now :: tl).
Proof.
  intros Ha Ht Hn. unfold getRateLimit. rewrite (get_head _ _ _ _ _ Ha Ht).
  destruct (Z.leb_spec REQUESTS_PER_HOUR n); [lia|].
  unfold set. simpl. rewrite String.eqb_refl.
  rewrite (delete_absent _ _ Ha). reflexivity.
Qed.

Lemma getRateLimit_denied now ip n s tl :
  find ip tl = None -> now - s <= ttl -> REQUESTS_PER_HOUR <= n ->
  getRateLimit now (mkEntry ip n s :: tl) ip =
  (mkVerdict false 0, mkEntry ip n s :: tl).
Proof.
  intros Ha Ht Hn. unfold getRateLimit. rewrite (get_head _ _ _ _ _ Ha Ht).
  destruct (Z.leb_spec REQUESTS_PER_HOUR n); [reflexivity|lia].
Qed.

(* A denied check does not touch the count of the identity. *)
Lemma denied_check_keeps_count now c ip :
  allowed (fst (getRateLimit now c ip)) = false ->
  stored (snd (getRateLimit now c ip)) ip = stored c ip.
Proof.
  unfold getRateLimit, get, stored.
  destruct (find ip c) as [e|] eqn:F.
  - destruct (isStale now e); simpl.
    + discriminate.
    + destruct (REQUESTS_PER_HOUR <=? val e); simpl; [|discriminate].
      intros _. destruct (find_In _ _ _ F) as [_ <-].
      rewrite String.eqb_refl. reflexivity.
  - simpl. discriminate.
Qed.

(* The six checks of one identity, each at most [ttl] after the one before. *)
Definition six (ip : string) (t1 t2 t3 t4 t5 t6 : Z) : list (Z * string) :=
  [(t1, ip); (t2, ip); (t3, ip); (t4, ip); (t5, ip); (t6, ip)].

Definition five (ip : string) (t1 t2 t3 t4 t5 : Z) : list (Z * string) :=
  [(t1, ip); (t2, ip); (t3, ip); (t4, ip); (t5, ip)].

Lemma six_checks_gaps c ip t1 t2 t3 t4 t5 t6 :
  fst (get t1 c ip) = None ->
  t2 - t1 <= ttl -> t3 - t2 <= ttl -> t4 - t3 <= ttl ->
  t5 - t4 <= ttl -> t6 - t5 <= ttl ->
  exists tl, find ip tl = None /\
    run (five ip t1 t2 t3 t4 t5) c =
      ([mkVerdict true 4; mkVerdict true 3; mkVerdict true 2;
        mkVerdict true 1; mkVerdict true 0],
       mkEntry ip 5 t5 :: tl) /\
    run (six ip t1 t2 t3 t4 t5 t6) c =
      ([mkVerdict true 4; mkVerdict true 3; mkVerdict true 2;
        mkVerdict true 1; mkVerdict true 0; mkVerdict false 0],
       mkEntry ip 5 t5 :: tl).
Proof.
  intros Hf H2 H3 H4 H5 H6.
  destruct (getRateLimit_fresh t1 c ip Hf) as (tl & Ha & E1).
  exists tl. split; [exact Ha|].
  unfold five, six, run. rewrite E1.
  rewrite (getRateLimit_counting t2 ip 1 t1 tl Ha H2) by (unfold REQUESTS_PER_HOUR; lia).
  rewrite (getRateLimit_counting t3 ip (1 + 1) t2 tl Ha H3) by (unfold REQUESTS_PER_HOUR; lia).
  rewrite (getRateLimit_counting t4 ip (1 + 1 + 1) t3 tl Ha H4) by (unfold REQUESTS_PER_HOUR; lia).
  rewrite (getRateLimit_counting t5 ip (1 + 1 + 1 + 1) t4 tl Ha H5) by (unfold REQUESTS_PER_HOUR; lia).
  rewrite (getRateLimit_denied t6 ip (1 + 1 + 1 + 1 + 1) t5 tl Ha H6) by (unfold REQUESTS_PER_HOUR; lia).
  split; reflexivity.
Qed.

(** C2. For an identity the cache does not know (or knows only through a
    stale entry) and six checks at non-decreasing times within one window of
    [ttl] milliseconds, the first five are allowed with 4, 3, 2, 1 and 0
    remaining, the sixth is denied with 0 remaining, and the denied check
    leaves the stored count at 5, where the fifth put it. *)
Theorem first_five_allowed_sixth_denied c ip t1 t2 t3 t4 t5 t6 :
  fst (get t1 c ip) = None ->
  t1 <= t2 <= t3 -> t3 <= t4 <= t5 -> t5 <= t6 <= t1 + ttl ->
  fst (run (six ip t1 t2 t3 t4 t5 t6) c) =
    [mkVerdict true 4; mkVerdict true 3; mkVerdict true 2;
     mkVerdict true 1; mkVerdict true 0; mkVerdict false 0]
  /\ stored (snd (run (five ip t1 t2 t3 t4 t5) c)) ip = Some 5
  /\ stored (snd (run (six ip t1 t2 t3 t4 t5 t6) c)) ip = Some 5.
Proof.
  intros Hf H12 H34 H56.
  destruct (six_checks_gaps c ip t1 t2 t3 t4 t5 t6 Hf) as (tl & Ha & E5 & E6);
    try lia.
  rewrite E5, E6. unfold stored. simpl. rewrite String.eqb_refl. auto.
Qed.

Lemma first_five_allowed_sixth_denied_witness :
  fst (run (six "203.0.113.7" 0 10 20 30 40 50) empty) =
    [mkVerdict true 4; mkVerdict true 3; mkVerdict true 2;
     mkVerdict true 1; mkVerdict true 0; mkVerdict false 0]
  /\ stored (snd (run (five "203.0.113.7" 0 10 20 30 40) empty)) "203.0.113.7"
     = Some 5
  /\ stored (snd (run (six "203.0.113.7" 0 10 20 30 40 50) empty)) "203.0.113.7"
     = Some 5.
Proof.
  apply (first_five_allowed_sixth_denied empty "203.0.113.7" 0 10 20 30 40 50).
  - reflexivity.
  - lia.
  - lia.
  - unfold ttl. lia.
Defined.

(** C8. Starting from the empty cache of a fresh process, after any sequence
    of checks, by any identities at any times, every stored count lies
    between 1 and the threshold of 5. *)
Theorem stored_count_at_most_threshold (calls : list (Z * string)) :
  Forall (fun e => 1 <= val e <= REQUESTS_PER_HOUR) (snd (run calls empty)).
Proof.
  apply (run_preserves calls empty). constructor.
Qed.

End RateLimiterFacts.

(** * Properties of the numbers and of the scoring helpers *)

Module NumberFacts.

Import JS Engine.

Definition finite (a : number) : Prop := exists q, a = Num q.

Lemma finite_Num q : finite (Num q).
Proof. exists q. reflexivity. Qed.

Lemma finite_of_Z z : finite (of_Z z).
Proof. apply finite_Num. Qed.

Lemma finite_lift2 f a b : finite a -> finite b -> finite (lift2 f a b).
Proof. intros [x ->] [y ->]. apply finite_Num. Qed.

Lemma Qle_bool_inject a b : Qle_bool (inject_Z a) (inject_Z b) = (a <=? b).
Proof. unfold Qle_bool. simpl. rewrite !Z.mul_1_r. reflexivity. Qed.

Lemma Math_max_of_Z a b : Math_max (of_Z a) (of_Z b) = of_Z (Z.max a b).
Proof.
  unfold Math_max, of_Z. rewrite Qle_bool_inject.
  destruct (Z.leb_spec a b); f_equal; f_equal; lia.
Qed.

Lemma Math_min_of_Z a b : Math_min (of_Z a) (of_Z b) = of_Z (Z.min a b).
Proof.
  unfold Math_min, of_Z. rewrite Qle_bool_inject.
  destruct (Z.leb_spec a b); f_equal; f_equal; lia.
Qed.

Lemma Math_round_Num q : Math_round (Num q) = of_Z (Qfloor (q + (1 # 2))).
Proof. reflexivity. Qed.

Lemma Math_round_of_Z z : Math_round (of_Z z) = of_Z z.
Proof.
  unfold of_Z, Math_round, of_Z. do 2 f_equal.
  unfold Qfloor, Qplus, inject_Z. simpl.
  symmetry. apply Z.div_unique with (r := 1); lia.
Qed.

(* clamp on a finite number and integer bounds. *)
Lemma clamp_Num q lo hi :
  clamp (Num q) (of_Z lo) (of_Z hi) =
  of_Z (Z.min (Z.max (Qfloor (q + (1 # 2))) lo) hi).
Proof.
  unfold clamp. rewrite Math_round_Num, Math_max_of_Z, Math_min_of_Z.
  reflexivity.
Qed.

Lemma clamp_NaN lo hi : clamp NaN lo hi = NaN.
Proof. reflexivity. Qed.

Lemma in_range_of_Z lo hi z :
  in_range lo hi (of_Z z) = true <-> lo <= z <= hi.
Proof.
  unfold in_range, of_Z, inject_Z. simpl.
  rewrite andb_true_iff, !Z.leb_le. tauto.
Qed.

Lemma clamp_in_range a lo hi :
  finite a -> lo <= hi -> in_range lo hi (clamp a (of_Z lo) (of_Z hi)) = true.
Proof.
  intros [q ->] H. rewrite clamp_Num. apply in_range_of_Z. lia.
Qed.

Lemma clamp_finite a lo hi : finite a -> finite (clamp a (of_Z lo) (of_Z hi)).
Proof. intros [q ->]. rewrite clamp_Num. apply finite_of_Z. Qed.

Lemma in_range_finite lo hi a : in_range lo hi a = true -> finite a.
Proof.
  destruct a as [q|]; [intros _; apply finite_Num|discriminate].
Qed.

(* clamp answers NaN exactly on NaN, when its bounds are numbers. *)
Lemma clamp_in_range_iff a lo hi :
  lo <= hi ->
  in_range lo hi (clamp a (of_Z lo) (of_Z hi)) = negb (is_NaN a).
Proof.
  intros H. destruct a as [q|]; simpl.
  - apply clamp_in_range; [apply finite_Num|exact H].
  - reflexivity.
Qed.

Lemma finite_Math_random g : finite (fst (Math_random g)).
Proof. apply finite_Num. Qed.

Lemma finite_Math_floor a : finite a -> finite (Math_floor a).
Proof. intros [q ->]. apply finite_of_Z. Qed.

Lemma finite_Math_round a : finite a -> finite (Math_round a).
Proof. intros [q ->]. apply finite_of_Z. Qed.

Lemma finite_Math_min a b : finite a -> finite b -> finite (Math_min a b).
Proof.
  intros [x ->] [y ->]. unfold Math_min.
  destruct (Qle_bool x y); apply finite_Num.
Qed.

(* Math.floor(Math.random() * n), for a positive integer n, is an integer
   from 0 to n - 1. *)
Lemma floor_random_range g n :
  0 < n ->
  exists z, Math_floor (mul (fst (Math_random g)) (of_Z n)) = of_Z z
            /\ 0 <= z < n.
Proof.
  intros Hn. unfold Math_random, mul, lift2, Math_floor, of_Z. simpl fst.
  eexists. split; [reflexivity|].
  unfold Qfloor, Qmult, inject_Z. simpl Qnum. simpl Qden.
  rewrite Pos.mul_1_r.
  pose proof (Z.mod_pos_bound (g O) (Zpos two53) eq_refl) as Hm.
  set (m := g O mod Zpos two53) in *.
  split.
  - apply Z.div_pos; [nia|reflexivity].
  - apply Z.div_lt_upper_bound; [reflexivity|nia].
Qed.

(* The jitter is an integer from -7 to 6. *)
Lemma jitter_range g :
  exists j, jitter_of (fst (Math_random g)) = of_Z j /\ -7 <= j <= 6.
Proof.
  destruct (floor_random_range g 14) as (z & E & Hz); [lia|].
  exists (z - 7). split; [|lia].
  unfold jitter_of. rewrite E. unfold sub, lift2, of_Z. f_equal.
  unfold Qminus, Qplus, Qopp, inject_Z. simpl. f_equal. lia.
Qed.

End NumberFacts.

Module HeuristicFacts.

Import JS Engine NumberFacts.

Lemma add_of_Z a b : add (of_Z a) (of_Z b) = of_Z (a + b).
Proof.
  unfold add, lift2, of_Z, Qplus, inject_Z. simpl. do 2 f_equal. lia.
Qed.

Lemma clamp_of_Z z lo hi :
  clamp (of_Z z) (of_Z lo) (of_Z hi) = of_Z (Z.min (Z.max z lo) hi).
Proof.
  unfold clamp. rewrite Math_round_of_Z, Math_max_of_Z, Math_min_of_Z.
  reflexivity.
Qed.

Lemma ramp_base_integer P hits ramp :
  exists z, ramp_base P hits ramp = of_Z z /\ z <= 100.
Proof.
  unfold ramp_base, n100. cbn [mul add lift2 of_Z].
  rewrite Math_round_Num, Math_min_of_Z.
  eexists. split; [reflexivity|lia].
Qed.

Lemma finite_pre_jitter_base P hits ramp : finite (pre_jitter_base P hits ramp).
Proof.
  unfold pre_jitter_base. destruct (Nat.eqb hits 0); [apply finite_of_Z|].
  destruct (ramp_base_integer P hits ramp) as (z & -> & _). apply finite_of_Z.
Qed.

(* scoreFromHits is the clamp of its pre-jitter base plus the jitter, and it
   draws one random number. *)
Lemma scoreFromHits_eq P hits ramp g :
  scoreFromHits P hits ramp g =
  (clamp (add (pre_jitter_base P hits ramp) (jitter_of (fst (Math_random g))))
         n0 n100,
   snd (Math_random g)).
Proof.
  unfold scoreFromHits, pre_jitter_base. simpl.
  destruct (Nat.eqb hits 0); reflexivity.
Qed.

Lemma finite_jitter g : finite (jitter_of (fst (Math_random g))).
Proof. destruct (jitter_range g) as (j & -> & _). apply finite_of_Z. Qed.

Lemma scoreFromHits_in_range P hits ramp g :
  in_range 0 100 (fst (scoreFromHits P hits ramp g)) = true.
Proof.
  rewrite scoreFromHits_eq. cbn [fst]. apply clamp_in_range; [|lia].
  apply finite_lift2; [apply finite_pre_jitter_base|apply finite_jitter].
Qed.

(* Without a hit the score is 60 plus the jitter: an integer from 53 to 66. *)
Lemma scoreFromHits_zero P ramp g :
  exists j, -7 <= j <= 6 /\ fst (scoreFromHits P 0 ramp g) = of_Z (60 + j).
Proof.
  destruct (jitter_range g) as (j & E & Hj). exists j. split; [exact Hj|].
  rewrite scoreFromHits_eq. cbn [fst]. unfold pre_jitter_base.
  cbn [Nat.eqb]. rewrite E, add_of_Z. unfold n0, n100. rewrite clamp_of_Z.
  f_equal. lia.
Qed.

Lemma pivot_draw_in_range lo width g :
  in_range 0 100 (fst (pivot_draw lo width g)) = true.
Proof.
  unfold pivot_draw. simpl. apply clamp_in_range; [|lia].
  apply finite_Num.
Qed.

(* The five heuristic metrics are integers from 0 to 100, whatever the idea,
   the random draws and the platform. *)
Lemma heuristics_in_range P idea g :
  let h := fst (heuristics P idea g) in
  in_range 0 100 (h_ai_hype_beast h) = true
  /\ in_range 0 100 (h_buzzword_density h) = true
  /\ in_range 0 100 (h_cringe_founder_energy h) = true
  /\ in_range 0 100 (h_market_viability h) = true
  /\ in_range 0 100 (h_pivot_to_ai_probability h) = true.
Proof.
  unfold heuristics.
  pose proof (scoreFromHits_in_range P (countMatches idea AI_KEYWORDS) ramp_ai g) as Hai.
  destruct (scoreFromHits P (countMatches idea AI_KEYWORDS) ramp_ai g) as [ai g1].
  pose proof (scoreFromHits_in_range P (countMatches idea BUZZWORDS) ramp_buzz g1) as Hbz.
  destruct (scoreFromHits P (countMatches idea BUZZWORDS) ramp_buzz g1) as [buzzRaw g2].
  pose proof (scoreFromHits_in_range P (countMatches idea CRINGE_PHRASES) ramp_cringe g2) as Hcr.
  destruct (scoreFromHits P (countMatches idea CRINGE_PHRASES) ramp_cringe g2) as [cringe g3].
  simpl fst in Hai, Hbz, Hcr.
  assert (Hbuzz : in_range 0 100 (clamp buzzRaw n0 n100) = true).
  { apply clamp_in_range; [eapply in_range_finite; eassumption|lia]. }
  pose proof (finite_jitter g3) as Hj.
  destruct (Math_random g3) as [r g4]. simpl fst in Hj.
  assert (Hmarket :
    in_range 0 100
      (clamp (add (sub (add (of_Z 55)
                            (Math_min (div (of_nat (List.length
                               (Str.split_ws (Str.trim idea)))) (Num (12 # 10)))
                               (of_Z 30)))
                       (Math_round (div (add ai (clamp buzzRaw n0 n100)) (of_Z 14))))
                  (jitter_of r)) n0 n100) = true).
  { apply clamp_in_range; [|lia].
    apply finite_lift2; [|exact Hj].
    apply finite_lift2.
    - apply finite_lift2; [apply finite_of_Z|].
      apply finite_Math_min; [|apply finite_of_Z].
      apply finite_lift2; apply finite_Num.
    - apply finite_Math_round. apply finite_lift2; [|apply finite_of_Z].
      apply finite_lift2; eapply in_range_finite; eassumption. }
  match goal with
  | |- context [let '(p, g5) := ?X in _] =>
      assert (Hp : in_range 0 100 (fst X) = true)
        by (repeat match goal with
                   | |- context [if ?b then _ else _] => destruct b
                   end; apply pivot_draw_in_range);
      destruct X as [pivot g5]
  end.
  simpl. auto.
Qed.

End HeuristicFacts.

(** * Properties of the handler *)

Module HandlerFacts.

Import JS Engine NumberFacts HeuristicFacts.
Local Open Scope string_scope.

(* What a 200 response of the try block is made of. *)
Lemma try_block_Ok P env idea idea_id user_id w r w' :
  try_block P env idea idea_id user_id w = (Some (Ok r), w') ->
  exists text data content llmJson yc_v yc di_v di,
    as_string idea = Some text
    /\ llm env = FetchOk (Some data)
    /\ message_content data = Some content
    /\ parse_reply P content = Some llmJson
    /\ get_prop (Some llmJson) "yc_bait_score" = Some yc_v
    /\ ToNumber P yc_v = Some yc
    /\ get_prop (Some llmJson) "delusion_index" = Some di_v
    /\ ToNumber P di_v = Some di
    /\ get_prop (Some llmJson) "founder_rank" = Some (founder_rank r)
    /\ get_prop (Some llmJson) "goblin_verdict" = Some (goblin_verdict r)
    /\ let h := fst (heuristics P text (random env)) in
       ai_hype_beast r = h_ai_hype_beast h
       /\ buzzword_density r = h_buzzword_density h
       /\ cringe_founder_energy r = h_cringe_founder_energy h
       /\ market_viability r = h_market_viability h
       /\ pivot_to_ai_probability r = h_pivot_to_ai_probability h
       /\ yc_bait_score r = clamp yc n0 n100
       /\ delusion_index r = clamp di (of_Z 55) n100
       /\ composite_score r =
            composite (ai_hype_beast r) (buzzword_density r)
              (cringe_founder_energy r) (market_viability r)
              (pivot_to_ai_probability r) (yc_bait_score r) (delusion_index r).
Proof.
  unfold try_block, bind, lift, ret, throw, call_llm, insert_score.
  intros H.
  destruct (as_string idea) as [text|] eqn:Et; [|discriminate H].
  destruct (heuristics P text (random env)) as [h g'] eqn:Eh.
  destruct (llm env) as [|t|[data|]] eqn:El; try discriminate H.
  { destruct t; discriminate H. }
  destruct (message_content data) as [content|] eqn:Ec; [|discriminate H].
  destruct (parse_reply P content) as [llmJson|] eqn:Ep; [|discriminate H].
  destruct (get_prop (Some llmJson) "yc_bait_score") as [yc_v|] eqn:Ey;
    [|discriminate H].
  destruct (ToNumber P yc_v) as [yc|] eqn:Eyn; [|discriminate H].
  destruct (get_prop (Some llmJson) "delusion_index") as [di_v|] eqn:Ed;
    [|discriminate H].
  destruct (ToNumber P di_v) as [di|] eqn:Edn; [|discriminate H].
  destruct (get_prop (Some llmJson) "founder_rank") as [rank|] eqn:Er;
    [|discriminate H].
  destruct (get_prop (Some llmJson) "goblin_verdict") as [verdict|] eqn:Ev;
    [|discriminate H].
  assert (Hr : r = mkScoreResponse (h_ai_hype_beast h) (h_buzzword_density h)
                 (h_cringe_founder_energy h) (h_market_viability h)
                 (h_pivot_to_ai_probability h) (clamp yc n0 n100)
                 (clamp di (of_Z 55) n100) rank verdict
                 (composite (h_ai_hype_beast h) (h_buzzword_density h)
                    (h_cringe_founder_energy h) (h_market_viability h)
                    (h_pivot_to_ai_probability h) (clamp yc n0 n100)
                    (clamp di (of_Z 55) n100))).
  { destruct (truthy idea_id && truthy user_id); congruence. }
  subst r. exists text, data, content, llmJson, yc_v, yc, di_v, di.
  rewrite Eh. simpl. repeat split; assumption || reflexivity.
Qed.

(* What a 200 response of the handler is made of. *)
Lemma handler_Ok P env req w r w' :
  handler P env req w = (Ok r, w') ->
  exists idea idea_id user_id w1,
    try_block P env idea idea_id user_id w1 = (Some (Ok r), w').
Proof.
  unfold handler. intros H.
  destruct (negb (String.eqb (method req) "POST")); [discriminate H|].
  destruct (RateLimiter.getRateLimit (now env) (rateLimiter w) (client_ip req))
    as [v c1].
  destruct (negb (RateLimiter.allowed v)); [discriminate H|].
  destruct (get_prop (body req) "idea") as [idea|]; [|discriminate H].
  destruct (get_prop (body req) "idea_id") as [idea_id|]; [|discriminate H].
  destruct (get_prop (body req) "user_id") as [user_id|]; [|discriminate H].
  destruct (negb (truthy idea)); [discriminate H|].
  destruct (try_block P env idea idea_id user_id
              {| rateLimiter := c1; scores := scores w; llm_calls := llm_calls w |})
    as [[r'|] w2] eqn:E; [|discriminate H].
  injection H as -> ->. eauto.
Qed.

(* The five heuristic metrics of a 200 response are in range; each of the
   two metrics read from the reply is in range unless it is NaN. *)
Lemma Ok_metrics P env req w r w' :
  handler P env req w = (Ok r, w') ->
  in_range 0 100 (ai_hype_beast r) = true
  /\ in_range 0 100 (buzzword_density r) = true
  /\ in_range 0 100 (cringe_founder_energy r) = true
  /\ in_range 0 100 (market_viability r) = true
  /\ in_range 0 100 (pivot_to_ai_probability r) = true
  /\ (yc_bait_score r = NaN \/ in_range 0 100 (yc_bait_score r) = true)
  /\ (delusion_index r = NaN \/ in_range 55 100 (delusion_index r) = true).
Proof.
  intros H. apply handler_Ok in H. destruct H as (idea & idea_id & user_id & w1 & H).
  apply try_block_Ok in H.
  destruct H as (text & data & content & llmJson & yc_v & yc & di_v & di &
                 _ & _ & _ & _ & _ & _ & _ & _ & _ & _ & H).
  cbv zeta in H.
  destruct H as (-> & -> & -> & -> & -> & Hy & Hd & _).
  pose proof (heuristics_in_range P text (random env)) as Hh. cbv zeta in Hh.
  destruct Hh as (H1 & H2 & H3 & H4 & H5).
  repeat split; try assumption.
  - rewrite Hy. destruct yc as [q|]; [right|left; reflexivity].
    apply clamp_in_range; [apply finite_Num|lia].
  - rewrite Hd. destruct di as [q|]; [right|left; reflexivity].
    apply (clamp_in_range (Num q) 55 100); [apply finite_Num|lia].
Qed.

(** C1, on a reply that leaves yc_bait_score out.  The model answers with
    the three other fields; the handler answers 200 and the yc_bait_score of
    the response is NaN, which is no integer of [0, 100]; the composite
    score is NaN with it. *)
Theorem missing_metric_escapes_clamp :
  exists r,
    fst (handler Sample.sample (Sample.answering 0 Sample.reply_without_yc)
           (Sample.post "Uber for dogs") initial) = Ok r
    /\ yc_bait_score r = NaN
    /\ in_range 0 100 (yc_bait_score r) = false
    /\ composite_score r = NaN.
Proof. eexists. split; [vm_compute; reflexivity|]. repeat split. Qed.

(** ** The order of the checks (C3) *)

Lemma get_prop_some_any (v : value) k k' x :
  get_prop v k = Some x -> exists y, get_prop v k' = Some y.
Proof.
  destruct v as [[| | | | |]|]; simpl; try discriminate; intros _; eauto.
  - destruct (String.eqb k' "0"); eauto.
  - destruct (String.eqb k' "0"); eauto.
Qed.

(* The world after the rate-limit check alone. *)
Definition after_check (env : Env) (req : Request) (w : World) : World :=
  mkWorld (snd (RateLimiter.getRateLimit (now env) (rateLimiter w) (client_ip req)))
          (scores w) (llm_calls w).

Definition check_allows (env : Env) (req : Request) (w : World) : bool :=
  RateLimiter.allowed
    (fst (RateLimiter.getRateLimit (now env) (rateLimiter w) (client_ip req))).




(* A truthy idea that is not a string is not an input error either: the
   call of [trim] throws and the catch clause answers 500. *)
Lemma non_text_idea_is_internal_error P env req w idea :
  method req = "POST" ->
  check_allows env req w = true ->
  get_prop (body req) "idea" = Some idea ->
  truthy idea = true ->
  as_string idea = None ->
  handler P env req w = (InternalServerError, after_check env req w).
Proof.
  intros Hm Ha Hi Ht Hs. unfold handler, check_allows, after_check in *.
  rewrite Hm. simpl negb.
  destruct (RateLimiter.getRateLimit (now env) (rateLimiter w) (client_ip req))
    as [v c1]. simpl fst in *. simpl snd. rewrite Ha. simpl negb. cbv iota.
  rewrite Hi.
  destruct (get_prop_some_any _ _ "idea_id" _ Hi) as (x & ->).
  destruct (get_prop_some_any _ _ "user_id" _ Hi) as (y & ->).
  rewrite Ht. simpl negb. cbv iota.
  unfold try_block, bind, lift. rewrite Hs. reflexivity.
Qed.

(** ** The reply of the language model (C4, C5) *)

(** C4, as the code has it.  The founder_rank of a 200 response is the
    founder_rank property of the parsed reply, whatever it holds: the
    handler copies it and compares it with no list of labels. *)
Theorem founder_rank_is_copied_from_reply P env req w r w' :
  handler P env req w = (Ok r, w') ->
  exists data content llmJson,
    llm env = FetchOk (Some data)
    /\ message_content data = Some content
    /\ parse_reply P content = Some llmJson
    /\ get_prop (Some llmJson) "founder_rank" = Some (founder_rank r).
Proof.
  intros H. apply handler_Ok in H.
  destruct H as (idea & idea_id & user_id & w1 & H).
  apply try_block_Ok in H.
  destruct H as (text & data & content & llmJson & yc_v & yc & di_v & di &
                 _ & Hl & Hc & Hp & _ & _ & _ & _ & Hr & _).
  exists data, content, llmJson. auto.
Qed.

Lemma founder_rank_is_copied_from_reply_witness :
  exists data content llmJson,
    llm (Sample.answering 0 Sample.reply_chad) = FetchOk (Some data)
    /\ message_content data = Some content
    /\ parse_reply Sample.sample content = Some llmJson
    /\ get_prop (Some llmJson) "founder_rank" = Some (Some (JStr "Chad")).
Proof.
  refine (founder_rank_is_copied_from_reply Sample.sample
            (Sample.answering 0 Sample.reply_chad)
            (Sample.post "Uber for dogs") initial
            (mkScoreResponse (of_Z 53) (of_Z 73) (of_Z 53) (of_Z 42) (of_Z 82)
               (of_Z 70) (of_Z 80) (Some (JStr "Chad"))
               (Some (JStr "Juicero for dogs.")) (of_Z 65))
            _ _).
  vm_compute. reflexivity.
Defined.

(** C4 as the specification states it fails: a reply whose founder_rank is
    "Sigma" is answered 200, with "Sigma" as the rank of the response. *)
Lemma unknown_rank_is_accepted :
  exists r,
    fst (handler Sample.sample (Sample.answering 0 Sample.reply_sigma)
           (Sample.post "Uber for dogs") initial) = Ok r
    /\ founder_rank r = Some (JStr "Sigma").
Proof. eexists. split; [vm_compute; reflexivity|reflexivity]. Qed.

(* With a reply that JSON.parse refuses, the try block throws: before the
   request to the model when the idea is not a string, after it otherwise. *)
Lemma try_block_unparsable P env idea idea_id user_id w data content :
  llm env = FetchOk (Some data) ->
  message_content data = Some content ->
  parse_reply P content = None ->
  try_block P env idea idea_id user_id w =
    (None,
     match as_string idea with
     | Some _ => mkWorld (rateLimiter w) (scores w) (S (llm_calls w))
     | None => w
     end).
Proof.
  intros Hl Hc Hp. unfold try_block, bind, lift, call_llm, throw, ret.
  destruct (as_string idea) as [text|]; [|reflexivity].
  destruct (heuristics P text (random env)) as [h g'].
  rewrite Hl, Hc, Hp. reflexivity.
Qed.

(** C5, as the code has it.  When the content of the reply is not well-formed
    JSON, so that JSON.parse throws, no request is answered with a score:
    the scores table is left as it was, and a request that got as far as the
    call of the model is answered 500 by the catch clause. *)
Theorem unparsable_reply_gives_no_score P env req w data content :
  llm env = FetchOk (Some data) ->
  message_content data = Some content ->
  parse_reply P content = None ->
  (forall r, fst (handler P env req w) <> Ok r)
  /\ scores (snd (handler P env req w)) = scores w
  /\ (llm_calls (snd (handler P env req w)) <> llm_calls w ->
      fst (handler P env req w) = InternalServerError).
Proof.
  intros Hl Hc Hp. unfold handler.
  destruct (negb (String.eqb (method req) "POST")).
  { simpl. repeat split; congruence. }
  destruct (RateLimiter.getRateLimit (now env) (rateLimiter w) (client_ip req))
    as [v c1].
  destruct (negb (RateLimiter.allowed v)).
  { simpl. repeat split; congruence. }
  destruct (get_prop (body req) "idea") as [idea|];
    [|simpl; repeat split; congruence].
  destruct (get_prop (body req) "idea_id") as [idea_id|];
    [|simpl; repeat split; congruence].
  destruct (get_prop (body req) "user_id") as [user_id|];
    [|simpl; repeat split; congruence].
  destruct (negb (truthy idea)).
  { simpl. repeat split; congruence. }
  rewrite (try_block_unparsable P env idea idea_id user_id _ data content Hl Hc Hp).
  destruct (as_string idea); simpl; repeat split; congruence.
Qed.

Lemma unparsable_reply_gives_no_score_witness :
  (forall r,
     fst (handler Sample.sample (Sample.answering 0 "{")
            (Sample.post "Uber for dogs") initial) <> Ok r)
  /\ scores (snd (handler Sample.sample (Sample.answering 0 "{")
                   (Sample.post "Uber for dogs") initial)) = scores initial
  /\ (llm_calls (snd (handler Sample.sample (Sample.answering 0 "{")
                       (Sample.post "Uber for dogs") initial))
        <> llm_calls initial ->
      fst (handler Sample.sample (Sample.answering 0 "{")
             (Sample.post "Uber for dogs") initial) = InternalServerError).
Proof.
  apply (unparsable_reply_gives_no_score Sample.sample
           (Sample.answering 0 "{") (Sample.post "Uber for dogs") initial
           (Sample.completion "{") "{").
  - reflexivity.
  - reflexivity.
  - reflexivity.
Defined.

(** C5 as the specification states it fails: a well-formed reply that has
    the two numbers but neither founder_rank nor goblin_verdict is answered
    200, with a response in which the rank and the verdict are undefined. *)
Lemma reply_without_rank_is_accepted :
  exists r,
    fst (handler Sample.sample (Sample.answering 0 Sample.reply_numbers_only)
           (Sample.post "Uber for dogs") initial) = Ok r
    /\ yc_bait_score r = of_Z 70 /\ delusion_index r = of_Z 80
    /\ founder_rank r = undefined /\ goblin_verdict r = undefined.
Proof. eexists. split; [vm_compute; reflexivity|]. repeat split. Qed.

(** ** The composite score (C6) *)

(* The arithmetic mean of seven integers. *)
Definition mean7 (a b c d e f g : Z) : Q :=
  inject_Z (a + b + c + d + e + f + g) / inject_Z 7.

(* n is the integer nearest to q: every other integer is farther away. *)
Definition nearest_integer (q : Q) (n : Z) : Prop :=
  forall m : Z, m <> n -> (Qabs (q - inject_Z n) < Qabs (q - inject_Z m))%Q.

Definition clamp_0_100 (n : Z) : Z := Z.min (Z.max n 0) 100.

Lemma as_integer_of_Z a z : as_integer a = Some z -> a = of_Z z.
Proof.
  destruct a as [[n [d|d|]]|]; simpl; try discriminate.
  intros [= ->]. reflexivity.
Qed.

Lemma div_of_Z a b : div (of_Z a) (of_Z b) = Num (inject_Z a / inject_Z b).
Proof. reflexivity. Qed.

Lemma round_sevenths s :
  Qfloor (inject_Z s / inject_Z 7 + (1 # 2)) = (2 * s + 7) / 14.
Proof.
  unfold Qfloor, Qdiv, Qmult, Qplus, Qinv, inject_Z.
  cbn -[Z.mul Z.add Z.div]. f_equal. lia.
Qed.

Lemma nearest_sevenths s :
  nearest_integer (inject_Z s / inject_Z 7) ((2 * s + 7) / 14).
Proof.
  intros m Hm.
  pose proof (Z.div_mod (2 * s + 7) 14 ltac:(lia)) as Hd.
  pose proof (Z.mod_pos_bound (2 * s + 7) 14 ltac:(lia)) as Hb.
  set (n := (2 * s + 7) / 14) in *.
  set (k := (2 * s + 7) mod 14) in *.
  unfold Qlt, Qabs, Qminus, Qplus, Qopp, Qdiv, Qmult, Qinv, inject_Z.
  cbn -[Z.mul Z.add Z.div Z.abs Z.opp]. lia.
Qed.

(* The composite of seven integers. *)
Lemma composite_of_integers a b c d e f g :
  composite (of_Z a) (of_Z b) (of_Z c) (of_Z d) (of_Z e) (of_Z f) (of_Z g) =
  of_Z (clamp_0_100 ((2 * (a + b + c + d + e + f + g) + 7) / 14)).
Proof.
  unfold composite. rewrite !add_of_Z, div_of_Z, Math_round_Num.
  rewrite round_sevenths. unfold n0, n100. rewrite clamp_of_Z. reflexivity.
Qed.

(** C6. In every 200 response whose seven metrics are integers a, ..., g,
    the composite score is the integer nearest to their arithmetic mean
    (a + ... + g) / 7, clamped to [0, 100].  The mean of seven integers is
    never half way between two integers, so the nearest integer is the same
    under every rule for ties. *)
Theorem composite_is_rounded_clamped_mean P env req w r w' a b c d e f g :
  handler P env req w = (Ok r, w') ->
  as_integer (ai_hype_beast r) = Some a ->
  as_integer (buzzword_density r) = Some b ->
  as_integer (cringe_founder_energy r) = Some c ->
  as_integer (market_viability r) = Some d ->
  as_integer (pivot_to_ai_probability r) = Some e ->
  as_integer (yc_bait_score r) = Some f ->
  as_integer (delusion_index r) = Some g ->
  exists n,
    nearest_integer (mean7 a b c d e f g) n
    /\ composite_score r = of_Z (clamp_0_100 n).
Proof.
  intros H Ha Hb Hc Hd He Hf Hg.
  apply handler_Ok in H. destruct H as (idea & idea_id & user_id & w1 & H).
  apply try_block_Ok in H.
  destruct H as (text & data & content & llmJson & yc_v & yc & di_v & di &
                 _ & _ & _ & _ & _ & _ & _ & _ & _ & _ & H).
  cbv zeta in H. destruct H as (_ & _ & _ & _ & _ & _ & _ & Hcomp).
  apply as_integer_of_Z in Ha, Hb, Hc, Hd, He, Hf, Hg.
  rewrite Hcomp, Ha, Hb, Hc, Hd, He, Hf, Hg.
  exists ((2 * (a + b + c + d + e + f + g) + 7) / 14). split.
  - apply nearest_sevenths.
  - apply composite_of_integers.
Qed.

Lemma composite_is_rounded_clamped_mean_witness :
  exists n,
    nearest_integer (mean7 53 73 53 42 82 70 80) n
    /\ of_Z 65 = of_Z (clamp_0_100 n).
Proof.
  refine (composite_is_rounded_clamped_mean Sample.sample
            (Sample.answering 0 Sample.reply_chad)
            (Sample.post "Uber for dogs") initial
            (mkScoreResponse (of_Z 53) (of_Z 73) (of_Z 53) (of_Z 42) (of_Z 82)
               (of_Z 70) (of_Z 80) (Some (JStr "Chad"))
               (Some (JStr "Juicero for dogs.")) (of_Z 65))
            _ 53 73 53 42 82 70 80 _ _ _ _ _ _ _ _).
  - vm_compute. reflexivity.
  - reflexivity.
  - reflexivity.
  - reflexivity.
  - reflexivity.
  - reflexivity.
  - reflexivity.
  - reflexivity.
Defined.

End HandlerFacts.

(** * The keyword scores: the floor without a hit, and monotonicity *)

Module ScoreFacts.

Import JS Engine NumberFacts HeuristicFacts.
Local Open Scope string_scope.

(* The text matches no keyword of any of the three lists. *)
Definition no_keyword (idea : string) : Prop :=
  countMatches idea AI_KEYWORDS = 0%nat
  /\ countMatches idea BUZZWORDS = 0%nat
  /\ countMatches idea CRINGE_PHRASES = 0%nat.

(* The lower half of the scale without 0: the widest band that could pass
   for a small floor band just above 0. *)
Definition low_band (v : number) : bool := in_range 1 49 v.

(** C7, as the code has it.  For a text that matches no keyword, each of the
    three metrics that come from scoreFromHits (ai_hype_beast,
    buzzword_density, cringe_founder_energy) is 60 plus the jitter: an
    integer from 53 to 66, inside the band 53-67 that the code documents,
    and never 0. *)
Theorem zero_hits_floor_band P idea g :
  no_keyword idea ->
  let h := fst (heuristics P idea g) in
  in_range 53 66 (h_ai_hype_beast h) = true
  /\ in_range 53 66 (h_buzzword_density h) = true
  /\ in_range 53 66 (h_cringe_founder_energy h) = true.
Proof.
  intros (Ha & Hb & Hc). unfold heuristics. rewrite Ha, Hb, Hc.
  destruct (scoreFromHits_zero P ramp_ai g) as (j1 & Hj1 & E1).
  destruct (scoreFromHits P 0 ramp_ai g) as [ai g1]. simpl fst in E1.
  destruct (scoreFromHits_zero P ramp_buzz g1) as (j2 & Hj2 & E2).
  destruct (scoreFromHits P 0 ramp_buzz g1) as [buzzRaw g2]. simpl fst in E2.
  destruct (scoreFromHits_zero P ramp_cringe g2) as (j3 & Hj3 & E3).
  destruct (scoreFromHits P 0 ramp_cringe g2) as [cringe g3]. simpl fst in E3.
  destruct (Math_random g3) as [r g4].
  match goal with
  | |- context [let '(p, g5) := ?X in _] => destruct X as [pivot g5]
  end.
  subst ai buzzRaw cringe. cbn [fst h_ai_hype_beast h_buzzword_density
                                 h_cringe_founder_energy].
  unfold n0, n100. rewrite clamp_of_Z.
  repeat split; apply in_range_of_Z; lia.
Qed.

Lemma no_keyword_sample : no_keyword "walk dogs now".
Proof. repeat split. Qed.

Lemma zero_hits_floor_band_witness :
  let h := fst (heuristics Sample.sample "walk dogs now" (Sample.constant_rng 0)) in
  in_range 53 66 (h_ai_hype_beast h) = true
  /\ in_range 53 66 (h_buzzword_density h) = true
  /\ in_range 53 66 (h_cringe_founder_energy h) = true.
Proof.
  apply (zero_hits_floor_band Sample.sample "walk dogs now"
           (Sample.constant_rng 0)).
  repeat split.
Defined.

(** C7 as the specification states it fails: for a text without any keyword
    and the least random draw, ai_hype_beast is 53, the lowest value a
    zero-hit score takes, and 53 is in the upper half of the scale, not in a
    small band just above 0. *)
Lemma zero_hits_not_near_zero :
  no_keyword "walk dogs now"
  /\ h_ai_hype_beast
       (fst (heuristics Sample.sample "walk dogs now" (Sample.constant_rng 0)))
     = of_Z 53
  /\ low_band
       (h_ai_hype_beast
          (fst (heuristics Sample.sample "walk dogs now" (Sample.constant_rng 0))))
     = false.
Proof. split; [exact no_keyword_sample|]. split; vm_compute; reflexivity. Qed.

(** ** Monotonicity of the pre-jitter base (C9) *)

Lemma le_of_Z a b : a <= b -> JS.le (of_Z a) (of_Z b).
Proof. intros H. unfold JS.le, of_Z. rewrite <- Zle_Qle. exact H. Qed.

Lemma ramp_base_eq P hits ramp :
  ramp_base P hits ramp =
  of_Z (Z.min 100
          (Qfloor (inject_Z 65
                   + inject_Z 22 * Math_log P (inject_Z (Z.of_nat hits) * ramp)
                   + (1 # 2)))).
Proof.
  unfold ramp_base, n100. cbn [mul add lift2 of_Z].
  rewrite Math_round_Num, Math_min_of_Z. reflexivity.
Qed.

Section Monotone.

Variable P : Platform.

(* What the proof asks of Math.log: from 1 upwards it does not decrease
   and it is not negative. *)
Hypothesis log_monotone :
  forall x y : Q, (1 <= x)%Q -> (x <= y)%Q -> (Math_log P x <= Math_log P y)%Q.
Hypothesis log_nonneg :
  forall x : Q, (1 <= x)%Q -> (0 <= Math_log P x)%Q.

Lemma scaled_hits_ge_1 (h : nat) (ramp : Q) :
  (1 <= h)%nat -> (1 <= ramp)%Q -> (1 <= inject_Z (Z.of_nat h) * ramp)%Q.
Proof.
  intros Hh Hr. apply Qmult_le_1_compat; [|exact Hr].
  change 1%Q with (inject_Z 1). rewrite <- Zle_Qle. lia.
Qed.

Lemma pre_jitter_base_monotone (ramp : Q) (h1 h2 : nat) :
  (1 <= ramp)%Q -> (h1 <= h2)%nat ->
  JS.le (pre_jitter_base P h1 ramp) (pre_jitter_base P h2 ramp).
Proof.
  intros Hr Hh. unfold pre_jitter_base.
  destruct (Nat.eqb_spec h1 0) as [->|N1];
    destruct (Nat.eqb_spec h2 0) as [->|N2].
  - apply le_of_Z. lia.
  - rewrite ramp_base_eq. apply le_of_Z.
    pose proof (log_nonneg _ (scaled_hits_ge_1 h2 ramp ltac:(lia) Hr)) as L.
    set (x := Math_log P (inject_Z (Z.of_nat h2) * ramp)) in *.
    assert (60 <= Qfloor (inject_Z 65 + inject_Z 22 * x + (1 # 2))).
    { rewrite <- (Qfloor_Z 60). apply Qfloor_resp_le.
      change (inject_Z 60) with (60 # 1). change (inject_Z 65) with (65 # 1).
      change (inject_Z 22) with (22 # 1). lra. }
    lia.
  - lia.
  - rewrite !ramp_base_eq. apply le_of_Z.
    assert (Hx : (inject_Z (Z.of_nat h1) * ramp
                  <= inject_Z (Z.of_nat h2) * ramp)%Q).
    { apply Qmult_le_compat_r; [|lra]. rewrite <- Zle_Qle. lia. }
    pose proof (log_monotone _ _ (scaled_hits_ge_1 h1 ramp ltac:(lia) Hr) Hx) as L.
    set (x := Math_log P (inject_Z (Z.of_nat h1) * ramp)) in *.
    set (y := Math_log P (inject_Z (Z.of_nat h2) * ramp)) in *.
    assert (Qfloor (inject_Z 65 + inject_Z 22 * x + (1 # 2))
            <= Qfloor (inject_Z 65 + inject_Z 22 * y + (1 # 2))).
    { apply Qfloor_resp_le.
      change (inject_Z 65) with (65 # 1). change (inject_Z 22) with (22 # 1).
      lra. }
    lia.
Qed.

End Monotone.

(** C9. For each of the three ramps the handler passes (2.5, 2 and 3), and
    whenever Math.log does not decrease and is not negative from 1 upwards,
    the value scoreFromHits adds its jitter to does not decrease with the
    number of hits: h1 <= h2 gives base h1 <= base h2, the step from no hit
    (60) to one hit included. *)
Theorem base_score_monotone_in_hits P ramp (h1 h2 : nat) :
  (forall x y : Q, (1 <= x)%Q -> (x <= y)%Q -> (Math_log P x <= Math_log P y)%Q) ->
  (forall x : Q, (1 <= x)%Q -> (0 <= Math_log P x)%Q) ->
  In ramp [ramp_ai; ramp_buzz; ramp_cringe] ->
  (h1 <= h2)%nat ->
  JS.le (pre_jitter_base P h1 ramp) (pre_jitter_base P h2 ramp).
Proof.
  intros Hm Hn Hr Hh. apply pre_jitter_base_monotone; try assumption.
  destruct Hr as [<-|[<-|[<-|[]]]]; unfold Qle; simpl; lia.
Qed.

Lemma sq_monotone x y : (0 <= x)%Q -> (x <= y)%Q -> (0 <= Sample.sq x)%Q /\ (Sample.sq x <= Sample.sq y)%Q.
Proof.
  intros H0 H. unfold Sample.sq. split.
  - apply Qmult_le_0_compat; assumption.
  - apply Qmult_le_compat_nonneg; split; assumption.
Qed.

Lemma log_approx_monotone x y :
  (1 <= x)%Q -> (x <= y)%Q -> (Sample.log_approx x <= Sample.log_approx y)%Q.
Proof.
  intros H1 H. unfold Sample.log_approx.
  assert (H0 : (0 <= x)%Q) by lra.
  destruct (sq_monotone _ _ H0 H) as (A0 & A).
  destruct (sq_monotone _ _ A0 A) as (B0 & B).
  destruct (sq_monotone _ _ B0 B) as (C0 & C).
  destruct (sq_monotone _ _ C0 C) as (D0 & D).
  destruct (sq_monotone _ _ D0 D) as (E0 & E).
  apply Qmult_le_compat_r; [|unfold Qle; simpl; lia].
  rewrite <- Zle_Qle. apply Z.log2_le_mono. apply Qfloor_resp_le. exact E.
Qed.

Lemma log_approx_nonneg x : (0 <= Sample.log_approx x)%Q.
Proof.
  unfold Sample.log_approx. apply Qmult_le_0_compat; [|unfold Qle; simpl; lia].
  change 0%Q with (inject_Z 0). rewrite <- Zle_Qle. apply Z.log2_nonneg.
Qed.

Lemma base_score_monotone_in_hits_witness :
  JS.le (pre_jitter_base Sample.sample 0 ramp_buzz)
        (pre_jitter_base Sample.sample 1 ramp_buzz).
Proof.
  apply (base_score_monotone_in_hits Sample.sample ramp_buzz 0 1).
  - exact log_approx_monotone.
  - intros x _. apply log_approx_nonneg.
  - simpl. auto.
  - lia.
Defined.

End ScoreFacts.

(** * Callers without an address (C10) *)

Module SharedIdentityFacts.

Import LRU RateLimiter LRUFacts RateLimiterFacts JS Engine.
Local Open Scope string_scope.

Definition count_allowed (vs : list verdict) : nat :=
  List.length (filter allowed vs).

(* The checks of one identity, at times of one window that starts at t0. *)
Definition in_window (ip : string) (t0 : Z) (call : Z * string) : Prop :=
  snd call = ip /\ t0 <= fst call <= t0 + ttl.

(* Once the identity has a count n set inside the window, at most 5 - n
   further checks are allowed. *)
Lemma counted_identity_bound ip t0 calls : forall n s tl,
  find ip tl = None -> t0 <= s -> 1 <= n <= REQUESTS_PER_HOUR ->
  Forall (in_window ip t0) calls ->
  Z.of_nat (count_allowed (fst (run calls (mkEntry ip n s :: tl))))
  <= REQUESTS_PER_HOUR - n.
Proof.
  induction calls as [|[t ip'] rest IH]; intros n s tl Ha Hs Hn Hw.
  - cbn [run fst count_allowed filter List.length Z.of_nat]. lia.
  - apply Forall_cons_iff in Hw. destruct Hw as [[Hip Ht] Hrest].
    simpl in Hip, Ht. subst ip'.
    cbn [run].
    destruct (Z.lt_ge_cases n REQUESTS_PER_HOUR) as [Hlt|Hge].
    + rewrite (getRateLimit_counting t ip n s tl Ha) by lia.
      specialize (IH (n + 1) t tl Ha ltac:(lia) ltac:(lia) Hrest).
      destruct (run rest (mkEntry ip (n + 1) t :: tl)) as [vs c2].
      unfold count_allowed in *. cbn [fst filter allowed List.length] in *. lia.
    + rewrite (getRateLimit_denied t ip n s tl Ha) by lia.
      specialize (IH n s tl Ha Hs Hn Hrest).
      destruct (run rest (mkEntry ip n s :: tl)) as [vs c2].
      unfold count_allowed in *. cbn [fst filter allowed List.length] in *. lia.
Qed.

(* An allowed check leaves the identity at the head of the cache, with a
   count from 1 to 5 set at the time of the check. *)
Lemma allowed_shape now c ip :
  Forall count_ok c ->
  allowed (fst (getRateLimit now c ip)) = true ->
  exists m tl, find ip tl = None /\ 1 <= m <= REQUESTS_PER_HOUR
    /\ snd (getRateLimit now c ip) = mkEntry ip m now :: tl.
Proof.
  intros Hc. unfold getRateLimit.
  pose proof (get_preserves count_ok now c ip Hc) as Hg.
  pose proof (get_fst now c ip) as Hf.
  destruct (get now c ip) as [found c1]. simpl in Hg, Hf.
  assert (Hcur : 0 <= match found with Some n => n | None => 0 end).
  { subst found. destruct (find ip c) as [e|] eqn:F; [|lia].
    destruct (isStale now e); [lia|].
    rewrite Forall_forall in Hc.
    pose proof (Hc e (proj1 (find_In _ _ _ F))) as He. unfold count_ok in He. lia. }
  destruct (Z.leb_spec REQUESTS_PER_HOUR
              (match found with Some n => n | None => 0 end)) as [|Hlt];
    simpl; [discriminate|]. intros _.
  unfold set. destruct (find ip c1) eqn:F1.
  - eexists _, _. split; [apply find_delete_same|]. split; [|reflexivity]. lia.
  - eexists _, _. split; [|split; [|reflexivity]]; [|lia].
    destruct (max <=? List.length c1)%nat; [apply find_removelast|]; exact F1.
Qed.

(* However the cache stands, one identity is allowed at most 5 checks in one
   window, as long as no other identity is checked in between. *)
Lemma one_identity_bound ip t0 calls : forall c,
  Forall count_ok c ->
  Forall (in_window ip t0) calls ->
  Z.of_nat (count_allowed (fst (run calls c))) <= REQUESTS_PER_HOUR.
Proof.
  induction calls as [|[t ip'] rest IH]; intros c Hc Hw.
  - simpl. unfold REQUESTS_PER_HOUR. lia.
  - apply Forall_cons_iff in Hw. destruct Hw as [[Hip Ht] Hrest].
    simpl in Hip, Ht. subst ip'.
    cbn [run].
    pose proof (allowed_shape t c ip Hc) as Hshape.
    pose proof (getRateLimit_preserves t c ip Hc) as Hpres.
    destruct (getRateLimit t c ip) as [v c1]. simpl fst in Hshape.
    simpl snd in Hshape, Hpres.
    destruct (allowed v) eqn:Ev.
    + destruct (Hshape eq_refl) as (m & tl & Ha & Hm & ->).
      pose proof (counted_identity_bound ip t0 rest m t tl Ha ltac:(lia) Hm Hrest) as Hb.
      destruct (run rest (mkEntry ip m t :: tl)) as [vs c2].
      unfold count_allowed in *. cbn [fst filter List.length] in *.
      rewrite Ev. cbn [List.length]. lia.
    + specialize (IH c1 Hpres Hrest).
      destruct (run rest c1) as [vs c2].
      unfold count_allowed in *. cbn [fst filter] in *. rewrite Ev. exact IH.
Qed.

(** Other identities in between.  As long as the cache is not full, a check
    of another identity does not touch the entry of this one, and the bound
    stands for checks that are interleaved with those of others. *)

Lemma find_delete_other k ip c : k <> ip -> find ip (delete k c) = find ip c.
Proof.
  intros N. induction c as [|e c IH]; [reflexivity|]. simpl.
  destruct (String.eqb_spec k (key e)) as [->|Nk]; simpl.
  - destruct (String.eqb_spec ip (key e)) as [E|_]; [congruence|exact IH].
  - destruct (String.eqb ip (key e)); [reflexivity|exact IH].
Qed.

Lemma length_delete k c : (List.length (delete k c) <= List.length c)%nat.
Proof.
  induction c as [|e c IH]; simpl; [lia|].
  destruct (String.eqb k (key e)); simpl; lia.
Qed.

Lemma length_delete_found k c e :
  find k c = Some e -> (S (List.length (delete k c)) <= List.length c)%nat.
Proof.
  induction c as [|e' c IH]; simpl; [discriminate|].
  destruct (String.eqb k (key e')); simpl.
  - intros _. pose proof (length_delete k c). lia.
  - intros H. specialize (IH H). lia.
Qed.

Lemma length_removelast_le (c : cache) :
  (List.length (removelast c) <= List.length c)%nat.
Proof.
  rewrite removelast_firstn_len, length_firstn. lia.
Qed.

Lemma get_other now c k ip :
  k <> ip ->
  find ip (snd (get now c k)) = find ip c
  /\ (List.length (snd (get now c k)) <= List.length c)%nat.
Proof.
  intros N. unfold get. destruct (find k c) as [e|] eqn:F; [|simpl; auto].
  pose proof (length_delete_found k c e F) as HL.
  destruct (find_In _ _ _ F) as [_ Hk].
  destruct (isStale now e); simpl.
  - split; [apply find_delete_other, N|lia].
  - split; [|lia].
    destruct (String.eqb_spec ip (key e)) as [E|_]; [congruence|].
    apply find_delete_other, N.
Qed.

Lemma set_other now c k v ip :
  k <> ip -> (List.length c < max)%nat ->
  find ip (set now c k v) = find ip c
  /\ (List.length (set now c k v) <= S (List.length c))%nat.
Proof.
  intros N HL. unfold set. destruct (find k c) as [e|] eqn:F.
  - cbn [find key List.length].
    destruct (String.eqb_spec ip k) as [E|_]; [congruence|].
    split; [apply find_delete_other, N|].
    pose proof (length_delete k c). lia.
  - destruct (Nat.leb_spec max (List.length c)); [lia|].
    cbn [find key List.length].
    destruct (String.eqb_spec ip k) as [E|_]; [congruence|].
    split; [reflexivity|lia].
Qed.

Lemma getRateLimit_other now c k ip :
  k <> ip -> (List.length c < max)%nat ->
  find ip (snd (getRateLimit now c k)) = find ip c
  /\ (List.length (snd (getRateLimit now c k)) <= S (List.length c))%nat.
Proof.
  intros N HL. unfold getRateLimit.
  destruct (get_other now c k ip N) as [Hf Hl].
  destruct (get now c k) as [found c1]. simpl in Hf, Hl.
  destruct (REQUESTS_PER_HOUR <=? match found with Some n => n | None => 0 end)%Z;
    simpl.
  - split; [exact Hf|lia].
  - destruct (set_other now c1 k
                (match found with Some n => n | None => 0 end + 1) ip N
                ltac:(lia)) as [Hf' Hl'].
    split; [congruence|lia].
Qed.

(* A check of the identity itself, read off its entry. *)
Lemma getRateLimit_same now c ip :
  (List.length (snd (getRateLimit now c ip)) <= S (List.length c))%nat
  /\ match find ip c with
     | Some e =>
         if isStale now e
         then allowed (fst (getRateLimit now c ip)) = true
              /\ find ip (snd (getRateLimit now c ip)) = Some (mkEntry ip 1 now)
         else if (REQUESTS_PER_HOUR <=? val e)%Z
         then allowed (fst (getRateLimit now c ip)) = false
              /\ find ip (snd (getRateLimit now c ip)) = Some e
         else allowed (fst (getRateLimit now c ip)) = true
              /\ find ip (snd (getRateLimit now c ip))
                 = Some (mkEntry ip (val e + 1) now)
     | None =>
         allowed (fst (getRateLimit now c ip)) = true
         /\ find ip (snd (getRateLimit now c ip)) = Some (mkEntry ip 1 now)
     end.
Proof.
  unfold getRateLimit, get.
  destruct (find ip c) as [e|] eqn:F.
  - pose proof (length_delete_found ip c e F) as HL.
    destruct (find_In _ _ _ F) as [_ Hk].
    destruct (isStale now e).
    + cbn [fst snd]. change (REQUESTS_PER_HOUR <=? 0)%Z with false. cbv iota.
      cbn [fst snd allowed]. unfold set. rewrite find_delete_same.
      split; [|split; [reflexivity|]].
      * cbn [List.length].
        destruct (max <=? List.length (delete ip c))%nat;
          [pose proof (length_removelast_le (delete ip c))|]; lia.
      * cbn [find key]. rewrite String.eqb_refl. reflexivity.
    + cbn [fst snd].
      assert (Hhead : find ip (e :: delete ip c) = Some e).
      { cbn [find]. rewrite Hk, String.eqb_refl. reflexivity. }
      destruct (REQUESTS_PER_HOUR <=? val e)%Z; cbn [fst snd allowed].
      * split; [cbn [List.length]; lia|]. split; [reflexivity|exact Hhead].
      * unfold set. rewrite Hhead. split; [|split; [reflexivity|]].
        -- cbn [List.length].
           pose proof (length_delete ip (e :: delete ip c)) as HD.
           cbn [List.length] in HD. lia.
        -- cbn [find key]. rewrite String.eqb_refl. reflexivity.
  - cbn [fst snd]. change (REQUESTS_PER_HOUR <=? 0)%Z with false. cbv iota.
    cbn [fst snd allowed]. unfold set. rewrite F.
    split; [|split; [reflexivity|]].
    + cbn [List.length].
      destruct (max <=? List.length c)%nat;
        [pose proof (length_removelast_le c)|]; lia.
    + cbn [find key]. rewrite String.eqb_refl. reflexivity.
Qed.

(* The allowed checks of one identity among the checks of a run. *)
Fixpoint allowed_for (ip : string) (calls : list (Z * string)) (c : cache)
  : nat :=
  match calls with
  | [] => 0
  | (t, k) :: rest =>
      let '(v, c1) := getRateLimit t c k in
      ((if String.eqb k ip && allowed v then 1 else 0)
       + allowed_for ip rest c1)%nat
  end.

Definition timely (t0 : Z) (call : Z * string) : Prop :=
  t0 <= fst call <= t0 + ttl.

Lemma counted_identity_interleaved ip t0 calls : forall c e,
  find ip c = Some e -> t0 <= start e -> 1 <= val e <= REQUESTS_PER_HOUR ->
  (List.length c + List.length calls < max)%nat ->
  Forall (timely t0) calls ->
  Z.of_nat (allowed_for ip calls c) <= REQUESTS_PER_HOUR - val e.
Proof.
  induction calls as [|[t k] rest IH]; intros c e F Hs Hn HL Hw.
  - cbn [allowed_for Z.of_nat]. lia.
  - apply Forall_cons_iff in Hw. destruct Hw as [Ht Hrest].
    unfold timely in Ht. simpl in Ht. cbn [allowed_for]. cbn [List.length] in HL.
    destruct (String.eqb_spec k ip) as [->|N].
    + destruct (getRateLimit_same t c ip) as [Hl Hsame]. rewrite F in Hsame.
      rewrite isStale_within in Hsame by lia.
      destruct (getRateLimit t c ip) as [v c1]. simpl fst in Hsame.
      simpl snd in Hsame, Hl.
      destruct (Z.leb_spec REQUESTS_PER_HOUR (val e)); destruct Hsame as [Ha Hf];
        rewrite Ha; cbn [andb].
      * specialize (IH c1 e Hf Hs Hn ltac:(lia) Hrest). lia.
      * specialize (IH c1 (mkEntry ip (val e + 1) t) Hf ltac:(simpl; lia)
                      ltac:(simpl; lia) ltac:(lia) Hrest).
        simpl val in IH. lia.
    + destruct (getRateLimit_other t c k ip N ltac:(lia)) as [Hf Hl].
      destruct (getRateLimit t c k) as [v c1]. simpl snd in Hf, Hl.
      cbn [andb]. rewrite F in Hf.
      specialize (IH c1 e Hf Hs Hn ltac:(lia) Hrest). lia.
Qed.

(* With fewer identities in play than the cache holds, one identity is
   allowed at most 5 checks in one window, whoever else is checked in
   between. *)
Lemma one_identity_bound_interleaved ip t0 calls : forall c,
  Forall count_ok c ->
  (List.length c + List.length calls < max)%nat ->
  Forall (timely t0) calls ->
  Z.of_nat (allowed_for ip calls c) <= REQUESTS_PER_HOUR.
Proof.
  induction calls as [|[t k] rest IH]; intros c Hc HL Hw.
  - cbn [allowed_for Z.of_nat]. unfold REQUESTS_PER_HOUR. lia.
  - apply Forall_cons_iff in Hw. destruct Hw as [Ht Hrest].
    unfold timely in Ht. simpl in Ht. cbn [allowed_for]. cbn [List.length] in HL.
    pose proof (getRateLimit_preserves t c k Hc) as Hpres.
    destruct (String.eqb_spec k ip) as [->|N].
    + destruct (getRateLimit_same t c ip) as [Hl Hsame].
      assert (Hval : forall e, find ip c = Some e ->
                               1 <= val e <= REQUESTS_PER_HOUR).
      { intros e F. rewrite Forall_forall in Hc.
        apply (Hc e). apply (find_In _ _ _ F). }
      destruct (getRateLimit t c ip) as [v c1]. simpl fst in Hsame.
      simpl snd in Hsame, Hl, Hpres.
      destruct (allowed v) eqn:Ev; cbn [andb].
      * assert (Hnew : exists m, find ip c1 = Some (mkEntry ip m t)
                                 /\ 1 <= m <= REQUESTS_PER_HOUR).
        { destruct (find ip c) as [e|] eqn:F.
          - specialize (Hval e eq_refl).
            destruct (isStale t e).
            + exists 1. split; [apply Hsame|unfold REQUESTS_PER_HOUR; lia].
            + destruct (Z.leb_spec REQUESTS_PER_HOUR (val e)).
              * destruct Hsame; congruence.
              * exists (val e + 1). split; [apply Hsame|lia].
          - exists 1. split; [apply Hsame|unfold REQUESTS_PER_HOUR; lia]. }
        destruct Hnew as (m & Hf & Hm).
        pose proof (counted_identity_interleaved ip t0 rest c1
                      (mkEntry ip m t) Hf ltac:(simpl; lia) ltac:(simpl; lia)
                      ltac:(lia) Hrest) as Hb.
        simpl val in Hb. lia.
      * specialize (IH c1 Hpres ltac:(lia) Hrest). lia.
    + destruct (getRateLimit_other t c k ip N ltac:(lia)) as [_ Hl].
      destruct (getRateLimit t c k) as [v c1]. simpl snd in Hl, Hpres.
      cbn [andb]. specialize (IH c1 Hpres ltac:(lia) Hrest). lia.
Qed.

(** The handler and the cache: a request that is not a POST leaves it alone,
    a POST changes it by exactly one check of the caller's identity, and the
    request goes past the limiter exactly when that check allows it. *)

Definition passed_limiter (r : Response) : bool :=
  match r with
  | MethodNotAllowed | TooManyRequests => false
  | _ => true
  end.

Lemma try_block_cache P env idea idea_id user_id w :
  rateLimiter (snd (try_block P env idea idea_id user_id w)) = rateLimiter w
  /\ match fst (try_block P env idea idea_id user_id w) with
     | Some r => passed_limiter r = true
     | None => True
     end.
Proof.
  unfold try_block, bind, lift, ret, throw, call_llm, insert_score.
  destruct (as_string idea) as [text|]; [|simpl; auto].
  destruct (heuristics P text (random env)) as [h g'].
  destruct (llm env) as [|[t|]|[data|]]; try (simpl; auto; fail).
  destruct (message_content data) as [content|]; [|simpl; auto].
  destruct (parse_reply P content) as [llmJson|]; [|simpl; auto].
  destruct (get_prop (Some llmJson) "yc_bait_score") as [yc_v|]; [|simpl; auto].
  destruct (ToNumber P yc_v) as [yc|]; [|simpl; auto].
  destruct (get_prop (Some llmJson) "delusion_index") as [di_v|]; [|simpl; auto].
  destruct (ToNumber P di_v) as [di|]; [|simpl; auto].
  destruct (get_prop (Some llmJson) "founder_rank") as [rank|]; [|simpl; auto].
  destruct (get_prop (Some llmJson) "goblin_verdict") as [verdict|]; [|simpl; auto].
  destruct (truthy idea_id && truthy user_id); [|simpl; auto].
  destruct (insert_error env); simpl; auto.
Qed.

Definition is_post (req : Request) : bool := String.eqb (method req) "POST".

Lemma handler_not_post P env req w :
  is_post req = false -> handler P env req w = (MethodNotAllowed, w).
Proof. unfold handler, is_post. intros ->. reflexivity. Qed.

Lemma handler_post P env req w :
  is_post req = true ->
  rateLimiter (snd (handler P env req w)) =
    snd (getRateLimit (now env) (rateLimiter w) (client_ip req))
  /\ passed_limiter (fst (handler P env req w)) =
    allowed (fst (getRateLimit (now env) (rateLimiter w) (client_ip req))).
Proof.
  unfold handler, is_post. intros ->. simpl negb. cbv iota.
  destruct (getRateLimit (now env) (rateLimiter w) (client_ip req)) as [v c1].
  simpl fst. simpl snd.
  destruct (allowed v); simpl negb; cbv iota; [|auto].
  destruct (get_prop (body req) "idea") as [idea|]; [|auto].
  destruct (get_prop (body req) "idea_id") as [idea_id|]; [|auto].
  destruct (get_prop (body req) "user_id") as [user_id|]; [|auto].
  destruct (negb (truthy idea)); [auto|].
  pose proof (try_block_cache P env idea idea_id user_id
                (mkWorld c1 (scores w) (llm_calls w))) as [Hc Ha].
  destruct (try_block P env idea idea_id user_id
              (mkWorld c1 (scores w) (llm_calls w))) as [[r|] w2];
    simpl in *; auto.
Qed.

(* The checks a sequence of requests makes. *)
Fixpoint checks_of (reqs : list (Env * Request)) : list (Z * string) :=
  match reqs with
  | [] => []
  | (env, req) :: rest =>
      if is_post req then (now env, client_ip req) :: checks_of rest
      else checks_of rest
  end.

Definition count_passed (rs : list Response) : nat :=
  List.length (filter passed_limiter rs).

Lemma serve_checks P reqs : forall w,
  rateLimiter (snd (serve P reqs w)) = snd (run (checks_of reqs) (rateLimiter w))
  /\ count_passed (fst (serve P reqs w)) =
     count_allowed (fst (run (checks_of reqs) (rateLimiter w))).
Proof.
  induction reqs as [|[env req] rest IH]; intros w; [split; reflexivity|].
  cbn [serve checks_of].
  destruct (is_post req) eqn:Ep.
  - destruct (handler_post P env req w Ep) as [Hc Ha].
    destruct (handler P env req w) as [r w1]. simpl fst in Ha. simpl snd in Hc.
    cbn [run].
    destruct (getRateLimit (now env) (rateLimiter w) (client_ip req)) as [v c1].
    simpl fst in Ha. simpl snd in Hc. subst c1.
    destruct (IH w1) as [IHc IHa].
    destruct (serve P rest w1) as [rs w2].
    destruct (run (checks_of rest) (rateLimiter w1)) as [vs c2].
    simpl in *. split; [exact IHc|].
    unfold count_passed, count_allowed in *. simpl. rewrite Ha.
    destruct (allowed v); simpl; congruence.
  - rewrite (handler_not_post P env req w Ep).
    destruct (IH w) as [IHc IHa].
    destruct (serve P rest w) as [rs w2]. simpl in *. split; [exact IHc|].
    exact IHa.
Qed.

Lemma serve_count_ok P reqs w :
  Forall count_ok (rateLimiter w) ->
  Forall count_ok (rateLimiter (snd (serve P reqs w))).
Proof.
  intros H. rewrite (proj1 (serve_checks P reqs w)). apply run_preserves. exact H.
Qed.

(** Other identities and the capacity of the cache.  The entry of an
    identity moves at most one place towards the end with each check of
    another identity and goes back to the front with each check of its own;
    it is evicted only from the last of [max] places. *)

(* The entry e of ip stands in the cache with at most p entries before it. *)
Definition held_at (ip : string) (e : entry) (p : nat) (c : cache) : Prop :=
  exists pre post,
    c = (pre ++ e :: post)%list /\ find ip pre = None /\ key e = ip
    /\ (List.length pre <= p)%nat.

Lemma held_find ip e p c : held_at ip e p c -> find ip c = Some e.
Proof.
  intros (pre & post & -> & Hp & Hk & _).
  induction pre as [|x pre IH]; cbn [app find] in *.
  - rewrite Hk, String.eqb_refl. reflexivity.
  - destruct (String.eqb ip (key x)); [discriminate|apply IH, Hp].
Qed.

Lemma held_front ip e tl : key e = ip -> held_at ip e 0 (e :: tl).
Proof.
  intros Hk. exists [], tl. split; [reflexivity|].
  split; [reflexivity|]. split; [exact Hk|cbn; lia].
Qed.

Lemma held_weaken ip e p q c :
  (p <= q)%nat -> held_at ip e p c -> held_at ip e q c.
Proof.
  intros Hpq (pre & post & Hc & Hp & Hk & Hl).
  exists pre, post. repeat split; try assumption. lia.
Qed.

Lemma delete_app k (l1 l2 : cache) :
  delete k (l1 ++ l2)%list = (delete k l1 ++ delete k l2)%list.
Proof.
  induction l1 as [|x l1 IH]; cbn [app delete]; [reflexivity|].
  destruct (String.eqb k (key x)); [exact IH|]. cbn [app]. rewrite IH.
  reflexivity.
Qed.

Lemma held_delete k ip e p c :
  k <> ip -> held_at ip e p c -> held_at ip e p (delete k c).
Proof.
  intros N (pre & post & -> & Hp & Hk & Hl).
  exists (delete k pre), (delete k post). split.
  - rewrite delete_app. cbn [delete].
    rewrite Hk, (proj2 (String.eqb_neq k ip) N). reflexivity.
  - split; [rewrite find_delete_other; assumption|].
    split; [exact Hk|]. pose proof (length_delete k pre). lia.
Qed.

Lemma held_cons x ip e p c :
  key x <> ip -> held_at ip e p c -> held_at ip e (S p) (x :: c).
Proof.
  intros N (pre & post & -> & Hp & Hk & Hl).
  exists (x :: pre), post. split; [reflexivity|]. split.
  - cbn [find]. destruct (String.eqb_spec ip (key x)) as [E|_];
      [congruence|exact Hp].
  - split; [exact Hk|cbn [List.length]; lia].
Qed.

Lemma held_removelast ip e p c :
  held_at ip e p c -> (S p < List.length c)%nat ->
  held_at ip e p (removelast c).
Proof.
  intros (pre & post & -> & Hp & Hk & Hl) Hlen.
  rewrite length_app in Hlen. cbn [List.length] in Hlen.
  destruct post as [|y post]; [cbn [List.length] in Hlen; lia|].
  exists pre, (removelast (y :: post)).
  split; [|repeat split; assumption].
  rewrite removelast_app by discriminate. reflexivity.
Qed.

Lemma held_set_absent now c k v ip e p :
  k <> ip -> find k c = None -> (S p < max)%nat ->
  held_at ip e p c -> held_at ip e (S p) (set now c k v).
Proof.
  intros N F Hp H. unfold set. rewrite F.
  apply held_cons; [exact N|].
  destruct (Nat.leb_spec max (List.length c)); [|exact H].
  apply held_removelast; [exact H|lia].
Qed.

(* A check of another identity, with room behind the entry. *)
Lemma held_other now c k ip e p :
  k <> ip -> (S p < max)%nat ->
  held_at ip e p c -> held_at ip e (S p) (snd (getRateLimit now c k)).
Proof.
  intros N Hp H. unfold getRateLimit, get.
  destruct (find k c) as [ek|] eqn:F.
  - destruct (find_In _ _ _ F) as [_ Hk].
    destruct (isStale now ek).
    + change (REQUESTS_PER_HOUR <=? 0)%Z with false. cbv iota. cbn [snd].
      apply held_set_absent; [exact N|apply find_delete_same|exact Hp|].
      apply held_delete; assumption.
    + destruct (REQUESTS_PER_HOUR <=? val ek)%Z; cbn [snd].
      * apply held_cons; [congruence|]. apply held_delete; assumption.
      * unfold set. cbn [find delete]. rewrite Hk, String.eqb_refl.
        apply held_cons; [exact N|].
        do 2 (apply held_delete; [exact N|]). exact H.
  - change (REQUESTS_PER_HOUR <=? 0)%Z with false. cbv iota. cbn [snd].
    apply held_set_absent; assumption.
Qed.

(* A check of the identity itself, while its entry is fresh. *)
Lemma held_same now c ip e p :
  held_at ip e p c -> now - start e <= ttl ->
  if (REQUESTS_PER_HOUR <=? val e)%Z
  then allowed (fst (getRateLimit now c ip)) = false
       /\ held_at ip e 0 (snd (getRateLimit now c ip))
  else allowed (fst (getRateLimit now c ip)) = true
       /\ held_at ip (mkEntry ip (val e + 1) now) 0
            (snd (getRateLimit now c ip)).
Proof.
  intros H Ht. pose proof (held_find _ _ _ _ H) as F.
  destruct (find_In _ _ _ F) as [_ Hk].
  unfold getRateLimit, get. rewrite F, (isStale_within _ _ Ht).
  destruct (REQUESTS_PER_HOUR <=? val e)%Z; cbn [fst snd allowed].
  - split; [reflexivity|apply held_front; congruence].
  - unfold set. cbn [find]. rewrite Hk, String.eqb_refl.
    split; [reflexivity|apply held_front; reflexivity].
Qed.

(* The checks of a run that are of other identities than ip. *)
Fixpoint others (ip : string) (calls : list (Z * string)) : nat :=
  match calls with
  | [] => 0
  | (_, k) :: rest => ((if String.eqb k ip then 0 else 1) + others ip rest)%nat
  end.

(* Once the identity has a count set inside the window, the further checks
   that are allowed go up to 5 and no further, as long as fewer checks of
   other identities follow than there are places behind the entry. *)
Lemma held_identity_bound ip t0 calls : forall c e p,
  held_at ip e p c -> t0 <= start e -> 1 <= val e <= REQUESTS_PER_HOUR ->
  (p + others ip calls < max)%nat ->
  Forall (timely t0) calls ->
  Z.of_nat (allowed_for ip calls c) <= REQUESTS_PER_HOUR - val e.
Proof.
  induction calls as [|[t k] rest IH]; intros c e p H Hs Hn Hb Hw.
  - cbn [allowed_for Z.of_nat]. lia.
  - apply Forall_cons_iff in Hw. destruct Hw as [Ht Hrest].
    unfold timely in Ht. simpl in Ht. cbn [allowed_for others] in *.
    destruct (String.eqb_spec k ip) as [->|N].
    + pose proof (held_same t c ip e p H ltac:(lia)) as Hsame.
      destruct (getRateLimit t c ip) as [v c1]. cbn [fst snd] in Hsame.
      destruct (Z.leb_spec REQUESTS_PER_HOUR (val e));
        destruct Hsame as [Ha Hh]; rewrite Ha; cbn [andb].
      * specialize (IH c1 e 0%nat Hh Hs Hn ltac:(lia) Hrest). lia.
      * specialize (IH c1 (mkEntry ip (val e + 1) t) 0%nat Hh
                      ltac:(simpl; lia) ltac:(simpl; lia) ltac:(lia) Hrest).
        simpl val in IH. lia.
    + pose proof (held_other t c k ip e p N ltac:(lia) H) as Hh.
      destruct (getRateLimit t c k) as [v c1]. cbn [snd] in Hh.
      cbn [andb].
      specialize (IH c1 e (S p) Hh Hs Hn ltac:(lia) Hrest). lia.
Qed.

(* However the cache stands, one identity is allowed at most 5 checks in one
   window in which fewer than [max] checks are of other identities. *)
Lemma shared_count_bound ip t0 calls : forall c,
  Forall count_ok c ->
  (others ip calls < max)%nat ->
  Forall (timely t0) calls ->
  Z.of_nat (allowed_for ip calls c) <= REQUESTS_PER_HOUR.
Proof.
  induction calls as [|[t k] rest IH]; intros c Hc Hb Hw.
  - cbn [allowed_for Z.of_nat]. unfold REQUESTS_PER_HOUR. lia.
  - apply Forall_cons_iff in Hw. destruct Hw as [Ht Hrest].
    unfold timely in Ht. simpl in Ht. cbn [allowed_for others] in *.
    pose proof (getRateLimit_preserves t c k Hc) as Hpres.
    destruct (String.eqb_spec k ip) as [->|N].
    + pose proof (allowed_shape t c ip Hc) as Hshape.
      destruct (getRateLimit t c ip) as [v c1]. cbn [fst snd] in *.
      destruct (allowed v); cbn [andb].
      * destruct (Hshape eq_refl) as (m & tl & Ha & Hm & ->).
        pose proof (held_identity_bound ip t0 rest _ (mkEntry ip m t) 0%nat
                      (held_front ip (mkEntry ip m t) tl eq_refl)
                      ltac:(simpl; lia)
                      ltac:(simpl; lia) ltac:(lia) Hrest) as Hbound.
        simpl val in Hbound. lia.
      * specialize (IH c1 Hpres ltac:(lia) Hrest). lia.
    + destruct (getRateLimit t c k) as [v c1]. cbn [snd] in Hpres.
      cbn [andb]. specialize (IH c1 Hpres ltac:(lia) Hrest). lia.
Qed.

(** Callers without an address *)

(* Neither the forwarding header nor the socket names the caller. *)
Definition anonymous (req : Request) : Prop :=
  x_forwarded_for req = None /\ remoteAddress req = None.

Lemma anonymous_ip req : anonymous req -> client_ip req = "unknown".
Proof. intros [H1 H2]. unfold client_ip. rewrite H1, H2. reflexivity. Qed.

Definition is_anonymous (req : Request) : bool :=
  match x_forwarded_for req, remoteAddress req with
  | None, None => true
  | _, _ => false
  end.

Lemma is_anonymous_spec req : is_anonymous req = true <-> anonymous req.
Proof.
  unfold is_anonymous, anonymous.
  destruct (x_forwarded_for req), (remoteAddress req); split;
    try discriminate; try (intros [H1 H2]; discriminate); auto.
Qed.

(* The requests of a run that come with a header or a socket address. *)
Definition with_address (reqs : list (Env * Request)) : nat :=
  List.length (filter (fun er => negb (is_anonymous (snd er))) reqs).

(* The requests of a run that come without an address and get past the
   rate limiter, read off the responses of the run. *)
Definition passed_anonymous (reqs : list (Env * Request)) (rs : list Response)
  : nat :=
  List.length
    (filter (fun p => is_anonymous (snd (fst p)) && passed_limiter (snd p))
            (combine reqs rs)).

Lemma checks_timely t0 reqs :
  Forall (fun er => t0 <= now (fst er) <= t0 + ttl) reqs ->
  Forall (timely t0) (checks_of reqs).
Proof.
  induction reqs as [|[env req] rest IH]; intros H; [constructor|].
  apply Forall_cons_iff in H. destruct H as [Ht Hrest]. cbn [checks_of].
  destruct (is_post req); [|auto]. constructor; [exact Ht|auto].
Qed.

Lemma others_checks reqs :
  (others "unknown" (checks_of reqs) <= with_address reqs)%nat.
Proof.
  unfold with_address.
  induction reqs as [|[env req] rest IH]; [cbn; lia|].
  cbn [checks_of filter snd].
  assert (Hle : forall l : list (Env * Request),
             (List.length (filter (fun er => negb (is_anonymous (snd er))) l)
              <= List.length
                   (if negb (is_anonymous req)
                    then (env, req) :: filter
                           (fun er => negb (is_anonymous (snd er))) l
                    else filter (fun er => negb (is_anonymous (snd er))) l))%nat).
  { intros l. destruct (negb (is_anonymous req)); cbn [List.length]; lia. }
  destruct (is_post req); [|specialize (Hle rest); lia].
  cbn [others].
  destruct (String.eqb_spec (client_ip req) "unknown") as [_|N].
  - specialize (Hle rest). lia.
  - destruct (is_anonymous req) eqn:Ea.
    + apply is_anonymous_spec, anonymous_ip in Ea. congruence.
    + cbn [negb List.length]. lia.
Qed.

Lemma passed_anonymous_checks P reqs : forall w,
  (passed_anonymous reqs (fst (serve P reqs w))
   <= allowed_for "unknown" (checks_of reqs) (rateLimiter w))%nat.
Proof.
  unfold passed_anonymous.
  induction reqs as [|[env req] rest IH]; intros w; [cbn; lia|].
  cbn [serve checks_of].
  destruct (is_post req) eqn:Ep.
  - destruct (handler_post P env req w Ep) as [Hc Ha].
    destruct (handler P env req w) as [r w1]. cbn [fst snd] in Hc, Ha.
    specialize (IH w1). destruct (serve P rest w1) as [rs w2].
    cbn [fst combine filter snd allowed_for] in *.
    destruct (getRateLimit (now env) (rateLimiter w) (client_ip req))
      as [v c1]. cbn [fst snd] in Hc, Ha. rewrite Hc in IH. rewrite Ha.
    destruct (is_anonymous req) eqn:Ea; cbn [andb].
    + apply is_anonymous_spec, anonymous_ip in Ea. rewrite Ea.
      cbn [String.eqb Ascii.eqb Bool.eqb andb].
      destruct (allowed v); cbn [List.length]; lia.
    + lia.
  - rewrite (handler_not_post P env req w Ep).
    specialize (IH w). destruct (serve P rest w) as [rs w2].
    cbn [fst combine filter snd passed_limiter] in *.
    rewrite andb_false_r. exact IH.
Qed.

(** C10. A request with neither an x-forwarded-for header nor a socket
    address is limited under the identity "unknown".  Whatever requests the
    process has served before, of the requests of a run whose times lie in
    one window of [ttl] milliseconds the callers without an address get at
    most 5 past the rate limiter between them, provided fewer than 500
    requests of the run come with an address: the callers share one count,
    which the cache holds as long as fewer than 500 other identities are
    checked after it. *)
Theorem anonymous_callers_share_one_count P history reqs t0 :
  Forall (fun er => t0 <= now (fst er) <= t0 + ttl) reqs ->
  (with_address reqs < max)%nat ->
  Forall (fun er => is_anonymous (snd er) = true ->
                    client_ip (snd er) = "unknown") reqs
  /\ (passed_anonymous reqs
        (fst (serve P reqs (snd (serve P history initial)))) <= 5)%nat.
Proof.
  intros Hw Hb. split.
  - apply Forall_forall. intros er _ Ha.
    apply anonymous_ip, is_anonymous_spec, Ha.
  - pose proof (passed_anonymous_checks P reqs
                  (snd (serve P history initial))) as Hle.
    pose proof (others_checks reqs) as Ho.
    pose proof (shared_count_bound "unknown" t0 (checks_of reqs)
                  (rateLimiter (snd (serve P history initial)))
                  (serve_count_ok P history initial (Forall_nil _))
                  ltac:(lia) (checks_timely t0 reqs Hw)) as Hbound.
    unfold REQUESTS_PER_HOUR in Hbound. lia.
Qed.

(* Six requests without an address, ten milliseconds apart, with a request
   from an address after the third. *)
Definition from_address (t : Z) (address idea : string) : Env * Request :=
  (Sample.answering t Sample.reply_chad,
   mkRequest "POST" (Some address) None (Some (JObj [("idea", JStr idea)]))).

Definition without_address (t : Z) (idea : string) : Env * Request :=
  (Sample.answering t Sample.reply_chad, Sample.post idea).

Definition six_anonymous : list (Env * Request) :=
  [without_address 1000 "Uber for dogs"; without_address 1010 "Uber for dogs";
   without_address 1020 "Uber for dogs";
   from_address 1025 "203.0.113.7" "Uber for cats";
   without_address 1030 "Uber for dogs"; without_address 1040 "Uber for dogs";
   without_address 1050 "Uber for dogs"].

Lemma anonymous_callers_share_one_count_witness :
  Forall (fun er => is_anonymous (snd er) = true ->
                    client_ip (snd er) = "unknown") six_anonymous
  /\ (passed_anonymous six_anonymous
        (fst (serve Sample.sample six_anonymous
                (snd (serve Sample.sample [] initial)))) <= 5)%nat.
Proof.
  apply (anonymous_callers_share_one_count Sample.sample [] six_anonymous 1000).
  - unfold six_anonymous, without_address, from_address.
    repeat (apply Forall_cons;
            [unfold ttl; cbn [fst now Sample.answering]; lia|]).
    apply Forall_nil.
  - vm_compute. lia.
Defined.

(* The limit is reached in that run: five of the six get past. *)
Example six_anonymous_five_pass :
  passed_anonymous six_anonymous (fst (serve Sample.sample six_anonymous initial))
  = 5%nat.
Proof. vm_compute. reflexivity. Qed.

(** The bound does not stand without the proviso.  Five requests without an
    address, then one request from each of 500 addresses, then five more
    without an address, all within one second: the 500 identities push the
    entry of "unknown" out of the cache, its count restarts, and ten
    requests without an address are scored in one window.  (The 500 take
    their places in the cache whatever they send; here they send an empty
    idea, which is checked against the limit before it is rejected.) *)

Definition address_of (i : nat) : string :=
  "2001:db8::" ++ NilZero.string_of_uint (Nat.to_uint i).

Definition crowded_hour : list (Env * Request) :=
  (map (fun i => without_address (1000 + Z.of_nat i) "Uber for dogs") (seq 0 5)
   ++ map (fun i => from_address (1005 + Z.of_nat i) (address_of i) "")
          (seq 0 500)
   ++ map (fun i => without_address (1505 + Z.of_nat i) "Uber for dogs")
          (seq 0 5))%list.

(* The responses to the requests of a run that come without an address. *)
Definition responses_to_anonymous (reqs : list (Env * Request))
  (rs : list Response) : list Response :=
  map snd (filter (fun p => is_anonymous (snd (fst p))) (combine reqs rs)).

Definition is_Ok (r : Response) : bool :=
  match r with Ok _ => true | _ => false end.

(** C10, as the specification words it, fails on this run: all of its
    requests lie in one window, every request without an address is
    answered with a score, and ten of them get past the rate limiter. *)
Lemma crowd_evicts_the_shared_count :
  forallb (fun er => (1000 <=? now (fst er))%Z && (now (fst er) <=? 2000)%Z)
          crowded_hour = true
  /\ forallb is_Ok
       (responses_to_anonymous crowded_hour
          (fst (serve Sample.sample crowded_hour initial))) = true
  /\ passed_anonymous crowded_hour
       (fst (serve Sample.sample crowded_hour initial)) = 10%nat.
Proof. vm_compute. repeat split; reflexivity. Qed.

End SharedIdentityFacts.

(** * Further properties of the rate limiter and of its cache *)

Module LimiterExtras.

Import LRU RateLimiter LRUFacts RateLimiterFacts SharedIdentityFacts.
Local Open Scope string_scope.

(* The verdict of a check, read off the entry the cache holds for the
   identity. *)
Definition verdict_for (now : Z) (o : option entry) : verdict :=
  match o with
  | Some e =>
      if isStale now e then mkVerdict true 4
      else if (REQUESTS_PER_HOUR <=? val e)%Z then mkVerdict false 0
      else mkVerdict true (REQUESTS_PER_HOUR - (val e + 1))
  | None => mkVerdict true 4
  end.

Lemma getRateLimit_verdict now c ip :
  fst (getRateLimit now c ip) = verdict_for now (find ip c).
Proof.
  unfold getRateLimit, get, verdict_for.
  destruct (find ip c) as [e|]; [|reflexivity].
  destruct (isStale now e); [reflexivity|].
  cbn [fst snd]. destruct (REQUESTS_PER_HOUR <=? val e)%Z; reflexivity.
Qed.

Lemma find_absent_keys k c : find k c = None <-> ~ In k (keys c).
Proof.
  induction c as [|e c IH]; simpl; [tauto|].
  destruct (String.eqb_spec k (key e)) as [->|N].
  - split; [discriminate|]. intros H. exfalso. apply H. auto.
  - rewrite IH. split.
    + intros H [E|H']; [congruence|auto].
    + intros H H'. apply H. auto.
Qed.

Lemma keys_delete_subset k c x : In x (keys (delete k c)) -> In x (keys c).
Proof.
  unfold keys. rewrite !in_map_iff. intros (e & <- & H).
  exists e. split; [reflexivity|]. eapply In_delete; eassumption.
Qed.

Lemma NoDup_keys_delete k c : NoDup (keys c) -> NoDup (keys (delete k c)).
Proof.
  induction c as [|e c IH]; simpl; [auto|].
  intros H. change (keys (e :: c)) with (key e :: keys c) in H.
  apply NoDup_cons_iff in H. destruct H as [Hn Hd].
  destruct (String.eqb k (key e)); [auto|].
  change (keys (e :: delete k c)) with (key e :: keys (delete k c)).
  constructor; [|auto].
  intros Hin. apply Hn. eapply keys_delete_subset; eassumption.
Qed.

Lemma NoDup_keys_removelast (c : cache) :
  NoDup (keys c) -> NoDup (keys (removelast c)).
Proof.
  induction c as [|e c IH]; [auto|].
  destruct c as [|e' c]; [intros _; constructor|].
  change (removelast (e :: e' :: c)) with (e :: removelast (e' :: c)).
  intros H. change (keys (e :: e' :: c)) with (key e :: keys (e' :: c)) in H.
  apply NoDup_cons_iff in H. destruct H as [Hn Hd].
  change (keys (e :: removelast (e' :: c)))
    with (key e :: keys (removelast (e' :: c))).
  constructor; [|apply IH; exact Hd].
  intros Hin. apply Hn. unfold keys in Hin. apply in_map_iff in Hin.
  destruct Hin as (x & Hx & Hin). unfold keys. apply in_map_iff.
  exists x. split; [exact Hx|]. apply In_removelast. exact Hin.
Qed.

Lemma length_removelast_full (c : cache) :
  (max <= List.length c)%nat -> S (List.length (removelast c)) = List.length c.
Proof.
  intros H. rewrite removelast_firstn_len, length_firstn.
  unfold max in H. lia.
Qed.

(* The cache holds at most [max] entries, under distinct keys. *)
Definition well_formed (c : cache) : Prop :=
  (List.length c <= max)%nat /\ NoDup (keys c).

Lemma get_well_formed now c k : well_formed c -> well_formed (snd (get now c k)).
Proof.
  intros [HL HN]. unfold well_formed, get.
  destruct (find k c) as [e|] eqn:F; [|split; assumption].
  pose proof (length_delete_found k c e F) as Hd.
  destruct (find_In _ _ _ F) as [_ Hk].
  destruct (isStale now e); cbn [snd]; split.
  - lia.
  - apply NoDup_keys_delete, HN.
  - cbn [List.length]. lia.
  - cbn [keys map]. constructor; [|apply NoDup_keys_delete, HN].
    rewrite Hk. apply find_absent_keys, find_delete_same.
Qed.

Lemma set_well_formed now c k v : well_formed c -> well_formed (set now c k v).
Proof.
  intros [HL HN]. unfold well_formed, set. destruct (find k c) as [e|] eqn:F.
  - pose proof (length_delete_found k c e F) as Hd. split.
    + cbn [List.length]. lia.
    + cbn [keys map key]. constructor; [|apply NoDup_keys_delete, HN].
      apply find_absent_keys, find_delete_same.
  - destruct (Nat.leb_spec max (List.length c)) as [Hfull|Hroom]; split.
    + cbn [List.length]. rewrite (length_removelast_full c Hfull). exact HL.
    + cbn [keys map key]. constructor; [|apply NoDup_keys_removelast, HN].
      apply find_absent_keys, find_removelast, F.
    + cbn [List.length]. lia.
    + cbn [keys map key]. constructor; [|exact HN].
      apply find_absent_keys, F.
Qed.

Lemma getRateLimit_well_formed now c ip :
  well_formed c -> well_formed (snd (getRateLimit now c ip)).
Proof.
  intros H. unfold getRateLimit.
  pose proof (get_well_formed now c ip H) as Hg.
  destruct (get now c ip) as [found c1]. cbn [snd] in Hg.
  destruct (REQUESTS_PER_HOUR <=? match found with Some n => n | None => 0 end)%Z;
    cbn [snd]; [exact Hg|apply set_well_formed, Hg].
Qed.

Lemma run_well_formed calls : forall c,
  well_formed c -> well_formed (snd (run calls c)).
Proof.
  induction calls as [|[t k] rest IH]; intros c H; [exact H|].
  cbn [run]. pose proof (getRateLimit_well_formed t c k H) as H1.
  destruct (getRateLimit t c k) as [v c1]. cbn [snd] in H1.
  specialize (IH c1 H1). destruct (run rest c1) as [vs c2]. exact IH.
Qed.

(** X1. The cache never tracks more than 500 identities and never holds two
    entries for one identity: both hold after any sequence of checks, by any
    identities at any times, that starts from the empty cache. *)
Theorem cache_stays_bounded_and_distinct (calls : list (Z * string)) :
  (List.length (snd (run calls empty)) <= max)%nat
  /\ NoDup (keys (snd (run calls empty))).
Proof.
  apply (run_well_formed calls empty). split; [cbn; lia|constructor].
Qed.

Lemma getRateLimit_stored now c ip :
  stored (snd (getRateLimit now c ip)) ip =
  match find ip c with
  | Some e =>
      if isStale now e then Some 1
      else if (REQUESTS_PER_HOUR <=? val e)%Z then Some (val e)
      else Some (val e + 1)
  | None => Some 1
  end.
Proof.
  pose proof (getRateLimit_same now c ip) as [_ H]. unfold stored.
  destruct (find ip c) as [e|].
  - destruct (isStale now e); [destruct H as [_ ->]; reflexivity|].
    destruct (REQUESTS_PER_HOUR <=? val e)%Z; destruct H as [_ ->]; reflexivity.
  - destruct H as [_ ->]. reflexivity.
Qed.

(** X2. After any sequence of checks from the empty cache, the next check of
    any identity answers one of two shapes: allowed, with 0 to 4 remaining
    and the identity's stored count equal to 5 minus the remaining; or
    denied, with 0 remaining and the stored count at 5. *)
Theorem verdict_matches_stored_count (calls : list (Z * string)) now ip :
  let c := snd (run calls empty) in
  let v := fst (getRateLimit now c ip) in
  let after := stored (snd (getRateLimit now c ip)) ip in
  (allowed v = true /\ 0 <= remaining v <= 4
   /\ after = Some (REQUESTS_PER_HOUR - remaining v))
  \/ (allowed v = false /\ remaining v = 0 /\ after = Some REQUESTS_PER_HOUR).
Proof.
  cbv zeta.
  pose proof (run_preserves calls empty (Forall_nil _)) as Hc.
  rewrite getRateLimit_verdict, getRateLimit_stored.
  set (c := snd (run calls empty)) in *.
  destruct (find ip c) as [e|] eqn:F.
  - rewrite Forall_forall in Hc.
    pose proof (Hc e (proj1 (find_In _ _ _ F))) as He.
    unfold count_ok, verdict_for, REQUESTS_PER_HOUR in *.
    destruct (isStale now e);
      [left; cbn; repeat split; reflexivity || lia|].
    destruct (Z.leb_spec 5 (val e)).
    + right. cbn [allowed remaining].
      split; [reflexivity|split; [reflexivity|f_equal; lia]].
    + left. cbn [allowed remaining].
      split; [reflexivity|split; [lia|f_equal; lia]].
  - left. cbn. repeat split; reflexivity || lia.
Qed.


Definition throttled : cache := [mkEntry "203.0.113.7" 5 1000].


(** X4. A check is denied only when the cache holds a live entry of the
    identity with at least five counted requests: one set at most [ttl]
    milliseconds ago, or one set while the clock read 0, which never
    expires.  The denial leaves that entry as it is, count and time of the
    last allowed check alike: asking again while throttled does not prolong
    the throttle. *)
Theorem denied_only_on_live_full_entry now c ip :
  allowed (fst (getRateLimit now c ip)) = false ->
  exists e,
    find ip c = Some e
    /\ REQUESTS_PER_HOUR <= val e
    /\ (start e = 0 \/ now - start e <= ttl)
    /\ find ip (snd (getRateLimit now c ip)) = Some e.
Proof.
  rewrite getRateLimit_verdict.
  pose proof (getRateLimit_same now c ip) as [_ H].
  destruct (find ip c) as [e|]; [|discriminate].
  unfold verdict_for.
  destruct (isStale now e) eqn:E; [discriminate|].
  apply isStale_false in E.
  destruct (Z.leb_spec REQUESTS_PER_HOUR (val e)); [|discriminate].
  intros _. exists e. destruct H as [_ H]. auto.
Qed.

Lemma denied_only_on_live_full_entry_witness :
  exists e,
    find "203.0.113.7" throttled = Some e
    /\ REQUESTS_PER_HOUR <= val e
    /\ (start e = 0 \/ 2000 - start e <= ttl)
    /\ find "203.0.113.7" (snd (getRateLimit 2000 throttled "203.0.113.7"))
       = Some e.
Proof.
  apply (denied_only_on_live_full_entry 2000 throttled "203.0.113.7").
  reflexivity.
Defined.

(** X5. While the cache is not full, a check of one identity changes nothing
    for another: the other identity's next check gets the verdict it would
    have got without it. *)
Theorem other_identity_does_not_interfere t t' c k ip :
  k <> ip ->
  (List.length c < max)%nat ->
  fst (getRateLimit t' (snd (getRateLimit t c k)) ip)
  = fst (getRateLimit t' c ip).
Proof.
  intros N HL. rewrite !getRateLimit_verdict.
  rewrite (proj1 (getRateLimit_other t c k ip N HL)). reflexivity.
Qed.

Lemma other_identity_does_not_interfere_witness :
  fst (getRateLimit 20 (snd (getRateLimit 10 throttled "198.51.100.2"))
         "203.0.113.7")
  = fst (getRateLimit 20 throttled "203.0.113.7").
Proof.
  apply (other_identity_does_not_interfere 10 20 throttled
           "198.51.100.2" "203.0.113.7").
  - discriminate.
  - unfold max. simpl. lia.
Defined.

(** X6. In a sequence of fewer than 500 checks from the empty cache, by any
    identities in any order, whose times lie in one window of [ttl]
    milliseconds, no identity is allowed more than five checks. *)
Theorem quota_holds_with_other_traffic ip t0 (calls : list (Z * string)) :
  (List.length calls < max)%nat ->
  Forall (timely t0) calls ->
  (allowed_for ip calls empty <= 5)%nat.
Proof.
  intros HL Hw.
  pose proof (one_identity_bound_interleaved ip t0 calls empty
                (Forall_nil _) HL Hw) as H.
  unfold REQUESTS_PER_HOUR in H. lia.
Qed.

Definition mixed_calls : list (Z * string) :=
  [(0, "a"); (1, "b"); (2, "a"); (3, "a"); (4, "b"); (5, "a"); (6, "a");
   (7, "a"); (8, "a")].

Lemma quota_holds_with_other_traffic_witness :
  (allowed_for "a" mixed_calls empty <= 5)%nat.
Proof.
  apply (quota_holds_with_other_traffic "a" 0 mixed_calls).
  - unfold max. simpl. lia.
  - unfold mixed_calls, timely, ttl.
    repeat (apply Forall_cons; [simpl; lia|]). apply Forall_nil.
Defined.








End LimiterExtras.

(** * Further properties of the scoring helpers *)

Module ScoringExtras.

Import JS Engine NumberFacts HeuristicFacts HandlerFacts.
Local Open Scope string_scope.

(** X8. clamp is idempotent, whatever its argument and its integer bounds:
    clamping a clamped value changes nothing.  (So the second clamp of
    buzzword_density and the rounding inside the composite's clamp have no
    effect of their own.) *)
Theorem clamp_idempotent v lo hi :
  clamp (clamp v (of_Z lo) (of_Z hi)) (of_Z lo) (of_Z hi)
  = clamp v (of_Z lo) (of_Z hi).
Proof.
  destruct v as [q|]; [|reflexivity].
  rewrite clamp_Num, clamp_of_Z. f_equal. lia.
Qed.

(** ** countMatches *)

(* The text from its n-th code unit on. *)
Fixpoint drop (n : nat) (s : string) : string :=
  match n, s with
  | O, _ => s
  | S k, EmptyString => EmptyString
  | S k, String _ r => drop k r
  end.

(* The literal stands in the text at some position. *)
Definition occurs (kw s : string) : Prop :=
  exists n, (n < String.length s)%nat /\ Str.starts_with kw (drop n s) = true.

(* The keyword stands in the text at some position, whatever the case; for
   the empty keyword the end of the text is a position too. *)
Definition occurs_i (kw s : string) : Prop :=
  exists n, (n <= String.length s)%nat
            /\ Str.starts_with_i kw (drop n s) = true.

Lemma count_zero_iff kw s :
  Str.count_occurrences kw s = 0%nat <-> ~ occurs_i kw s.
Proof.
  unfold Str.count_occurrences, occurs_i.
  induction s as [|c r IH]; cbn [Str.count_from].
  - destruct kw as [|a kw].
    + split; [discriminate|]. intros H. exfalso. apply H.
      exists 0%nat. split; [simpl; lia|reflexivity].
    + split; [|reflexivity]. intros _ (n & _ & Hs).
      destruct n; discriminate Hs.
  - destruct (Str.starts_with_i kw (String c r)) eqn:E.
    + split; [discriminate|]. intros H. exfalso. apply H.
      exists 0%nat. split; [simpl; lia|exact E].
    + rewrite IH. split.
      * intros H (n & Hn & Hs). destruct n as [|n].
        -- cbn [drop] in Hs. congruence.
        -- apply H. exists n. split; [simpl in Hn; lia|exact Hs].
      * intros H (n & Hn & Hs). apply H. exists (S n).
        split; [simpl; lia|exact Hs].
Qed.

Lemma fold_count_zero (f : string -> nat) kws : forall acc,
  fold_left (fun count kw => (count + f kw)%nat) kws acc = 0%nat
  <-> acc = 0%nat /\ Forall (fun kw => f kw = 0%nat) kws.
Proof.
  induction kws as [|kw kws IH]; intros acc; cbn [fold_left].
  - split; [intros ->; split; [reflexivity|constructor]|tauto].
  - rewrite IH. split.
    + intros [H1 H2]. split; [lia|]. constructor; [lia|exact H2].
    + intros [H1 H2]. apply Forall_cons_iff in H2. destruct H2 as [H2 H3].
      split; [lia|exact H3].
Qed.

(** X9. countMatches answers 0 exactly when no keyword of the list stands at
    any position of the lowered text, whatever the case of the keyword's
    letters.  (An empty keyword stands at every position, so a list that
    holds one never gives 0.) *)
Theorem countMatches_zero_iff_no_keyword_occurs text keywords :
  countMatches text keywords = 0%nat
  <-> Forall (fun kw => ~ occurs_i kw (Str.toLowerCase text)) keywords.
Proof.
  unfold countMatches.
  rewrite (fold_count_zero
             (fun kw => Str.count_occurrences kw (Str.toLowerCase text))).
  split.
  - intros [_ H]. eapply Forall_impl; [|exact H].
    intros kw Hk. apply count_zero_iff, Hk.
  - intros H. split; [reflexivity|]. eapply Forall_impl; [|exact H].
    intros kw Hk. apply count_zero_iff, Hk.
Qed.

(* A keyword written in capitals is found in the lowered text all the same,
   and the empty keyword is found at each of the four positions of a text of
   three code units. *)
Example capital_keyword_matches : countMatches "Uber for AI" ["AI"] = 1%nat.
Proof. reflexivity. Qed.

Example empty_keyword_matches : countMatches "abc" [""] = 4%nat.
Proof. reflexivity. Qed.

Lemma starts_with_i_length p : forall s,
  Str.starts_with_i p s = true -> (String.length p <= String.length s)%nat.
Proof.
  induction p as [|a p IH]; intros s H; [simpl; lia|].
  destruct s as [|b s]; [discriminate|]. simpl in H.
  apply andb_true_iff in H. destruct H as [_ H]. apply IH in H. simpl. lia.
Qed.

Lemma count_from_bound kw s : forall skip,
  kw <> "" ->
  (skip <= String.length s ->
   Str.count_from kw skip s * String.length kw + skip <= String.length s)%nat
  /\ (String.length s <= skip -> Str.count_from kw skip s = 0)%nat.
Proof.
  induction s as [|c r IH]; intros skip Hkw.
  - destruct kw as [|a kw]; [congruence|].
    split; intros H; cbn [Str.count_from]; [simpl in *; lia|reflexivity].
  - assert (HL : (1 <= String.length kw)%nat).
    { destruct kw; [congruence|simpl; lia]. }
    cbn [Str.count_from String.length]. destruct skip as [|k].
    + split; [intros _|intros H; lia].
      destruct (Str.starts_with_i kw (String c r)) eqn:E.
      * apply starts_with_i_length in E. cbn [String.length] in E.
        destruct (IH (Nat.pred (String.length kw)) Hkw) as [H1 _].
        specialize (H1 ltac:(lia)). lia.
      * destruct (IH 0%nat Hkw) as [H1 _]. specialize (H1 ltac:(lia)). lia.
    + destruct (IH k Hkw) as [H1 H2]. split; intros H.
      * specialize (H1 ltac:(lia)). lia.
      * apply H2. lia.
Qed.

(** X10. The matches of one keyword do not overlap: the number of hits times
    the length of the keyword is at most the length of the lowered text, the
    text in which the keyword is looked for. *)
Theorem hits_do_not_overlap text kw :
  (countMatches text [kw] * String.length kw
   <= String.length (Str.toLowerCase text))%nat.
Proof.
  unfold countMatches. cbn [fold_left]. rewrite Nat.add_0_l.
  destruct kw as [|a kw]; [cbn [String.length]; lia|].
  assert (Hkw : String a kw <> "") by discriminate.
  destruct (count_from_bound (String a kw) (Str.toLowerCase text) 0 Hkw)
    as [H _].
  unfold Str.count_occurrences. specialize (H ltac:(lia)). lia.
Qed.

(** ** The ranges of market_viability and of pivot_to_ai_probability *)

Lemma split_ws_from_length b s : (1 <= List.length (Str.split_ws_from b s))%nat.
Proof.
  revert b. induction s as [|c r IH]; intros b; cbn [Str.split_ws_from].
  - simpl. lia.
  - destruct (Str.is_space c).
    + destruct b; [apply IH|]. cbn [List.length]. lia.
    + specialize (IH false).
      destruct (Str.split_ws_from false r); cbn [List.length] in *; lia.
Qed.

Lemma in_range_integer lo hi a :
  in_range lo hi a = true -> exists z, a = of_Z z /\ (lo <= z <= hi)%Z.
Proof.
  unfold in_range. destruct (as_integer a) as [z|] eqn:E; [|discriminate].
  intros H. exists z. split; [apply as_integer_of_Z, E|].
  apply andb_true_iff in H. rewrite !Z.leb_le in H. exact H.
Qed.

Lemma round_quotient s d :
  Qfloor (inject_Z s / inject_Z (Zpos d) + (1 # 2))
  = ((2 * s + Zpos d) / (2 * Zpos d))%Z.
Proof.
  unfold Qfloor, Qdiv, Qmult, Qplus, Qinv, inject_Z.
  cbn -[Z.mul Z.add Z.div]. f_equal; lia.
Qed.

Lemma Qfloor_bounds (q : Q) (lo hi : Z) :
  (inject_Z lo <= q)%Q -> (q < inject_Z hi + 1)%Q ->
  (lo <= Qfloor q <= hi)%Z.
Proof.
  intros H1 H2. split.
  - rewrite <- (Qfloor_Z lo). apply Qfloor_resp_le, H1.
  - pose proof (Qfloor_le q) as H.
    assert (H3 : (inject_Z (Qfloor q) < inject_Z (hi + 1))%Q).
    { rewrite inject_Z_plus. eapply Qle_lt_trans; [exact H|exact H2]. }
    rewrite <- Zlt_Qlt in H3. lia.
Qed.

(* The specificity bonus of a text of wc >= 1 words lies in [5/6, 30]. *)
Lemma bonus_range (wc : nat) :
  (1 <= wc)%nat ->
  exists b, Math_min (div (of_nat wc) (Num (12 # 10))) (of_Z 30) = Num b
            /\ ((5 # 6) <= b <= 30)%Q.
Proof.
  intros H. unfold of_nat, of_Z, div, lift2, Math_min.
  assert (Hw : (1 <= inject_Z (Z.of_nat wc))%Q).
  { change 1%Q with (inject_Z 1). rewrite <- Zle_Qle. lia. }
  set (w := inject_Z (Z.of_nat wc)) in *.
  assert (E : (w / (12 # 10) == w * (10 # 12))%Q) by reflexivity.
  destruct (Qle_bool (w / (12 # 10)) (inject_Z 30)) eqn:B.
  - exists (w / (12 # 10))%Q. split; [reflexivity|].
    apply Qle_bool_iff in B. change (inject_Z 30) with 30%Q in B.
    rewrite E in *. split; lra.
  - exists (inject_Z 30). split; [reflexivity|].
    change (inject_Z 30) with 30%Q. split; lra.
Qed.

(** X11. market_viability is always an integer from 35 to 91, whatever the
    idea and the random draws: the base of 55 gains between 5/6 and 30 for
    the words, loses between 0 and 14 for the hype, and moves by a jitter
    from -7 to 6. *)
Theorem market_viability_range P idea g :
  in_range 35 91 (h_market_viability (fst (heuristics P idea g))) = true.
Proof.
  unfold heuristics.
  pose proof (scoreFromHits_in_range P (countMatches idea AI_KEYWORDS) ramp_ai g) as Hai.
  destruct (scoreFromHits P (countMatches idea AI_KEYWORDS) ramp_ai g) as [ai g1].
  pose proof (scoreFromHits_in_range P (countMatches idea BUZZWORDS) ramp_buzz g1) as Hbz.
  destruct (scoreFromHits P (countMatches idea BUZZWORDS) ramp_buzz g1) as [buzzRaw g2].
  destruct (scoreFromHits P (countMatches idea CRINGE_PHRASES) ramp_cringe g2) as [cringe g3].
  cbn [fst] in Hai, Hbz.
  destruct (in_range_integer _ _ _ Hai) as (a & -> & Ha).
  destruct (in_range_integer _ _ _ Hbz) as (b & -> & Hb).
  unfold n0, n100. rewrite clamp_of_Z.
  replace (Z.min (Z.max b 0) 100) with b by lia.
  destruct (bonus_range (List.length (Str.split_ws (Str.trim idea)))
              (split_ws_from_length false _)) as (bonus & -> & Hbonus).
  destruct (jitter_range g3) as (j & Ej & Hj).
  destruct (Math_random g3) as [r g4]. cbn [fst] in Ej. rewrite Ej.
  match goal with
  | |- context [let '(p, g5) := ?X in _] => destruct X as [pivot g5]
  end.
  cbn [fst h_market_viability].
  rewrite add_of_Z, div_of_Z, Math_round_Num.
  change (inject_Z 14) with (inject_Z (Zpos 14)). rewrite round_quotient.
  set (p := ((2 * (a + b) + 14) / (2 * 14))%Z).
  assert (Hp : (0 <= p <= 14)%Z).
  { unfold p. split.
    - apply Z.div_pos; lia.
    - assert ((2 * (a + b) + 14) / (2 * 14) < 15)%Z; [|lia].
      apply Z.div_lt_upper_bound; lia. }
  cbn [add sub lift2 of_Z]. rewrite clamp_Num. apply in_range_of_Z.
  assert (Hp1 : (0 <= inject_Z p)%Q)
    by (change 0%Q with (inject_Z 0); rewrite <- Zle_Qle; lia).
  assert (Hp2 : (inject_Z p <= 14)%Q)
    by (change 14%Q with (inject_Z 14); rewrite <- Zle_Qle; lia).
  assert (Hj1 : (-7 <= inject_Z j)%Q)
    by (change (-7)%Q with (inject_Z (-7)); rewrite <- Zle_Qle; lia).
  assert (Hj2 : (inject_Z j <= 6)%Q)
    by (change 6%Q with (inject_Z 6); rewrite <- Zle_Qle; lia).
  pose proof (Qfloor_bounds
                (inject_Z 55 + bonus - inject_Z p + inject_Z j + (1 # 2))
                35 91) as HF.
  change (inject_Z 55) with 55%Q in *. change (inject_Z 35) with 35%Q in HF.
  change (inject_Z 91) with 91%Q in HF.
  specialize (HF ltac:(lra) ltac:(lra)). lia.
Qed.

(* A draw of the pivot branches: lo plus an integer below width. *)
Lemma pivot_draw_range lo width g :
  (0 <= lo)%Z -> (0 < width)%Z -> (lo + width <= 101)%Z ->
  in_range lo (lo + width - 1) (fst (pivot_draw lo width g)) = true.
Proof.
  intros Hlo Hw Hhi. unfold pivot_draw.
  destruct (floor_random_range g width Hw) as (z & E & Hz).
  destruct (Math_random g) as [r g1]. cbn [fst] in *.
  rewrite E, add_of_Z. unfold n0, n100. rewrite clamp_of_Z.
  apply in_range_of_Z. lia.
Qed.

(** X12. pivot_to_ai_probability lies in the range of the first branch that
    matches: 55 to 74 when ai_hype_beast is at least 60, else 82 to 96 when
    buzzword_density is at least 50, else 70 to 89 when market_viability is
    at least 55, else 65 to 89. *)
Theorem pivot_follows_first_matching_branch P idea g :
  let h := fst (heuristics P idea g) in
  let pivot := h_pivot_to_ai_probability h in
  if geb (h_ai_hype_beast h) (of_Z 60) then in_range 55 74 pivot = true
  else if geb (h_buzzword_density h) (of_Z 50) then in_range 82 96 pivot = true
  else if geb (h_market_viability h) (of_Z 55) then in_range 70 89 pivot = true
  else in_range 65 89 pivot = true.
Proof.
  unfold heuristics.
  destruct (scoreFromHits P (countMatches idea AI_KEYWORDS) ramp_ai g) as [ai g1].
  destruct (scoreFromHits P (countMatches idea BUZZWORDS) ramp_buzz g1) as [buzzRaw g2].
  destruct (scoreFromHits P (countMatches idea CRINGE_PHRASES) ramp_cringe g2) as [cringe g3].
  destruct (Math_random g3) as [r g4].
  set (buzz := clamp buzzRaw n0 n100).
  match goal with
  | |- context [clamp (add ?m (jitter_of r)) n0 n100] =>
      set (market := clamp (add m (jitter_of r)) n0 n100)
  end.
  pose proof (pivot_draw_range 55 20 g4 ltac:(lia) ltac:(lia) ltac:(lia)) as H1.
  pose proof (pivot_draw_range 82 15 g4 ltac:(lia) ltac:(lia) ltac:(lia)) as H2.
  pose proof (pivot_draw_range 70 20 g4 ltac:(lia) ltac:(lia) ltac:(lia)) as H3.
  pose proof (pivot_draw_range 65 25 g4 ltac:(lia) ltac:(lia) ltac:(lia)) as H4.
  destruct (geb ai (of_Z 60)) eqn:E1.
  - destruct (pivot_draw 55 20 g4) as [pivot g5]. cbn. rewrite E1. exact H1.
  - destruct (geb buzz (of_Z 50)) eqn:E2.
    + destruct (pivot_draw 82 15 g4) as [pivot g5]. cbn. rewrite E1.
      fold buzz. rewrite E2. exact H2.
    + destruct (geb market (of_Z 55)) eqn:E3.
      * destruct (pivot_draw 70 20 g4) as [pivot g5]. cbn. rewrite E1.
        fold buzz. rewrite E2. fold market. rewrite E3. exact H3.
      * destruct (pivot_draw 65 25 g4) as [pivot g5]. cbn. rewrite E1.
        fold buzz. rewrite E2. fold market. rewrite E3. exact H4.
Qed.

(** ** The reply without code fences, and the caller's identity *)

Lemma starts_with_fence_json s :
  Str.starts_with Str.fence_json s = true -> Str.starts_with Str.fence s = true.
Proof.
  unfold Str.fence_json, Str.fence.
  destruct s as [|a [|b [|c s]]]; cbn [Str.starts_with];
    rewrite ?andb_false_r; try discriminate.
  intros H. repeat (apply andb_true_iff in H; destruct H as [? H]).
  repeat (apply andb_true_iff; split; try assumption). reflexivity.
Qed.

Lemma strip_fences_without_fence s :
  ~ occurs Str.fence s -> Str.strip_fences s = s.
Proof.
  unfold Str.strip_fences, occurs. induction s as [|c r IH]; [reflexivity|].
  intros H. cbn [Str.strip_fences_from].
  assert (E : Str.starts_with Str.fence (String c r) = false).
  { destruct (Str.starts_with Str.fence (String c r)) eqn:E; [|reflexivity].
    exfalso. apply H. exists 0%nat. split; [simpl; lia|exact E]. }
  destruct (Str.starts_with Str.fence_json (String c r)) eqn:Ej.
  - apply starts_with_fence_json in Ej. congruence.
  - rewrite E. f_equal. apply IH. intros (n & Hn & Hs). apply H.
    exists (S n). split; [simpl; lia|exact Hs].
Qed.

(** X13. A reply that holds no code fence reaches JSON.parse trimmed and
    otherwise untouched. *)
Theorem reply_without_fence_is_only_trimmed P content :
  ~ occurs Str.fence content ->
  parse_reply P content = JSON_parse P (Str.trim content).
Proof.
  intros H. unfold parse_reply. rewrite (strip_fences_without_fence _ H).
  reflexivity.
Qed.

Lemma reply_without_fence_is_only_trimmed_witness :
  parse_reply Sample.sample " {} " = JSON_parse Sample.sample (Str.trim " {} ").
Proof.
  apply (reply_without_fence_is_only_trimmed Sample.sample " {} ").
  intros (n & Hn & H).
  destruct n as [|[|[|[|n]]]]; simpl in Hn; try lia; discriminate H.
Defined.

Fixpoint contains (c : ascii) (s : string) : bool :=
  match s with
  | EmptyString => false
  | String a r => Ascii.eqb a c || contains c r
  end.

Lemma split_char_head sep s :
  contains sep (hd "" (Str.split_char sep s)) = false.
Proof.
  induction s as [|c r IH]; [reflexivity|]. cbn [Str.split_char].
  destruct (Ascii.eqb c sep) eqn:E; [reflexivity|].
  destruct (Str.split_char sep r) as [|w ws]; cbn [hd contains] in *.
  - rewrite E. reflexivity.
  - rewrite E, IH. reflexivity.
Qed.

Lemma trimStart_contains c s :
  contains c s = false -> contains c (Str.trimStart s) = false.
Proof.
  induction s as [|a r IH]; [auto|]. cbn [Str.trimStart].
  destruct (Str.is_space a); [|auto].
  cbn [contains]. intros H. apply orb_false_iff in H. apply IH, H.
Qed.

Lemma trimEnd_contains c s :
  contains c s = false -> contains c (Str.trimEnd s) = false.
Proof.
  induction s as [|a r IH]; [auto|]. cbn [Str.trimEnd contains].
  intros H. apply orb_false_iff in H. destruct H as [Ha Hr].
  specialize (IH Hr). destruct (Str.trimEnd r) as [|b r'].
  - destruct (Str.is_space a); [reflexivity|]. cbn [contains].
    rewrite Ha. reflexivity.
  - cbn [contains] in *. rewrite Ha. exact IH.
Qed.

Lemma trimEnd_idempotent s : Str.trimEnd (Str.trimEnd s) = Str.trimEnd s.
Proof.
  induction s as [|a r IH]; [reflexivity|]. cbn [Str.trimEnd].
  destruct (Str.trimEnd r) as [|b r'] eqn:E.
  - destruct (Str.is_space a) eqn:Ea; [reflexivity|].
    cbn [Str.trimEnd]. rewrite Ea. reflexivity.
  - cbn [Str.trimEnd] in *. rewrite IH. reflexivity.
Qed.

(* The string does not begin with white space. *)
Definition starts_clean (s : string) : Prop :=
  match s with
  | EmptyString => True
  | String c _ => Str.is_space c = false
  end.

Lemma trimStart_clean s : starts_clean (Str.trimStart s).
Proof.
  induction s as [|a r IH]; [exact I|]. cbn [Str.trimStart].
  destruct (Str.is_space a) eqn:E; [exact IH|exact E].
Qed.

Lemma trimEnd_clean s : starts_clean s -> starts_clean (Str.trimEnd s).
Proof.
  destruct s as [|a r]; [auto|]. cbn [starts_clean Str.trimEnd]. intros H.
  destruct (Str.trimEnd r); [rewrite H|]; exact H.
Qed.

Lemma trimStart_of_clean s : starts_clean s -> Str.trimStart s = s.
Proof.
  destruct s as [|a r]; [auto|]. cbn [starts_clean Str.trimStart].
  intros ->. reflexivity.
Qed.

Lemma trim_idempotent s : Str.trim (Str.trim s) = Str.trim s.
Proof.
  unfold Str.trim.
  rewrite (trimStart_of_clean _ (trimEnd_clean _ (trimStart_clean s))).
  apply trimEnd_idempotent.
Qed.

(* The first piece of a split is the text before the first separator, or
   the whole text when it holds none. *)
Lemma split_char_whole sep s :
  contains sep s = false -> Str.split_char sep s = [s].
Proof.
  induction s as [|c r IH]; [reflexivity|]. cbn [contains Str.split_char].
  intros H. apply orb_false_iff in H. destruct H as [Hc Hr].
  rewrite Hc, (IH Hr). reflexivity.
Qed.

Lemma split_char_first sep s rest :
  contains sep s = false ->
  hd "" (Str.split_char sep (s ++ String sep rest)) = s.
Proof.
  induction s as [|c r IH]; cbn [contains append Str.split_char].
  - intros _. rewrite Ascii.eqb_refl. reflexivity.
  - intros H. apply orb_false_iff in H. destruct H as [Hc Hr].
    rewrite Hc. specialize (IH Hr).
    destruct (Str.split_char sep (r ++ String sep rest)) as [|w ws];
      cbn [hd] in *; rewrite IH; reflexivity.
Qed.

(** X14. When the x-forwarded-for header is present, the identity of the
    caller is its first entry, without the white space around it: the text of
    the header before its first comma, or the whole header when it holds no
    comma.  What follows the first comma and the socket address play no
    part. *)
Theorem forwarded_identity_is_first_entry_trimmed m first rest ra b :
  contains "," first = false ->
  client_ip (mkRequest m (Some first) ra b) = Str.trim first
  /\ client_ip (mkRequest m (Some (first ++ String "," rest)) ra b)
     = Str.trim first.
Proof.
  intros H. unfold client_ip. cbn [x_forwarded_for]. split.
  - rewrite (split_char_whole _ _ H). reflexivity.
  - rewrite (split_char_first _ _ rest H). reflexivity.
Qed.

Lemma forwarded_identity_is_first_entry_trimmed_witness :
  client_ip (mkRequest "POST" (Some " 203.0.113.7 ") (Some "10.0.0.1") None)
  = Str.trim " 203.0.113.7 "
  /\ client_ip (mkRequest "POST" (Some (" 203.0.113.7 " ++ ", 198.51.100.2"))
                          (Some "10.0.0.1") None)
     = Str.trim " 203.0.113.7 ".
Proof.
  apply (forwarded_identity_is_first_entry_trimmed
           "POST" " 203.0.113.7 " " 198.51.100.2" (Some "10.0.0.1") None).
  reflexivity.
Defined.

(* The identity read from a header of two entries. *)
Example forwarded_identity_sample :
  client_ip (mkRequest "POST" (Some " 203.0.113.7 , 198.51.100.2")
                       (Some "10.0.0.1") None)
  = "203.0.113.7".
Proof. reflexivity. Qed.

End ScoringExtras.

(** * Further properties of the handler *)

Module HandlerExtras.

Import JS Engine NumberFacts HeuristicFacts HandlerFacts SharedIdentityFacts.
Local Open Scope string_scope.

(* A field of the body, undefined when the body has none to read. *)
Definition body_field (req : Request) (k : string) : value :=
  match get_prop (body req) k with
  | Some v => v
  | None => undefined
  end.

(* The row the handler writes for a response. *)
Definition row_of (req : Request) (s : ScoreResponse) : ScoreRow :=
  mkScoreRow (body_field req "idea_id") (body_field req "user_id") s.

(* Both ids are there and the insert goes through. *)
Definition persists (env : Env) (req : Request) : bool :=
  truthy (body_field req "idea_id") && truthy (body_field req "user_id")
  && negb (insert_error env).

(* The idea is a string that is not empty. *)
Definition has_text (req : Request) : bool :=
  match body_field req "idea" with
  | Some (JStr s) => negb (String.eqb s "")
  | _ => false
  end.

(* What the try block does to the world, by its outcome. *)
Lemma try_block_effects P env idea idea_id user_id w :
  let o := fst (try_block P env idea idea_id user_id w) in
  let w' := snd (try_block P env idea idea_id user_id w) in
  rateLimiter w' = rateLimiter w
  /\ llm_calls w' = match as_string idea with
                    | Some _ => S (llm_calls w)
                    | None => llm_calls w
                    end
  /\ match o with
     | Some (Ok s) =>
         scores w' =
           (if truthy idea_id && truthy user_id && negb (insert_error env)
            then scores w ++ [mkScoreRow idea_id user_id s]
            else scores w)%list
         /\ exists data, llm env = FetchOk (Some data)
     | Some LLMRequestFailed =>
         scores w' = scores w /\ exists t, llm env = FetchNotOk (Some t)
     | Some _ => False
     | None =>
         scores w' = scores w
         /\ (as_string idea = None \/ forall t, llm env <> FetchNotOk (Some t))
     end.
Proof.
  cbv zeta.
  unfold try_block, bind, lift, ret, throw, call_llm, insert_score.
  destruct (as_string idea) as [text|]; [|cbn; auto].
  destruct (heuristics P text (random env)) as [h g'].
  destruct (llm env) as [|[t|]|[data|]];
    try (cbn; repeat split; eauto; right; congruence).
  destruct (message_content data) as [content|];
    [|cbn; repeat split; auto; right; congruence].
  destruct (parse_reply P content) as [llmJson|];
    [|cbn; repeat split; auto; right; congruence].
  destruct (get_prop (Some llmJson) "yc_bait_score") as [yc_v|];
    [|cbn; repeat split; auto; right; congruence].
  destruct (ToNumber P yc_v) as [yc|];
    [|cbn; repeat split; auto; right; congruence].
  destruct (get_prop (Some llmJson) "delusion_index") as [di_v|];
    [|cbn; repeat split; auto; right; congruence].
  destruct (ToNumber P di_v) as [di|];
    [|cbn; repeat split; auto; right; congruence].
  destruct (get_prop (Some llmJson) "founder_rank") as [rank|];
    [|cbn; repeat split; auto; right; congruence].
  destruct (get_prop (Some llmJson) "goblin_verdict") as [verdict|];
    [|cbn; repeat split; auto; right; congruence].
  destruct (truthy idea_id && truthy user_id);
    [|cbn; repeat split; eauto].
  destruct (insert_error env); cbn; repeat split; eauto.
Qed.

(* The five ways through the handler. *)
Lemma handler_cases P env req w :
  (is_post req = false /\ handler P env req w = (MethodNotAllowed, w))
  \/ (is_post req = true /\ check_allows env req w = false
      /\ handler P env req w = (TooManyRequests, after_check env req w))
  \/ (is_post req = true /\ check_allows env req w = true
      /\ get_prop (body req) "idea" = None
      /\ handler P env req w = (Uncaught, after_check env req w))
  \/ (is_post req = true /\ check_allows env req w = true
      /\ (exists idea, get_prop (body req) "idea" = Some idea)
      /\ truthy (body_field req "idea") = false
      /\ handler P env req w = (MissingIdea, after_check env req w))
  \/ (is_post req = true /\ check_allows env req w = true
      /\ (exists idea, get_prop (body req) "idea" = Some idea)
      /\ truthy (body_field req "idea") = true
      /\ handler P env req w =
           (match fst (try_block P env (body_field req "idea")
                         (body_field req "idea_id") (body_field req "user_id")
                         (after_check env req w)) with
            | Some r => r
            | None => InternalServerError
            end,
            snd (try_block P env (body_field req "idea")
                   (body_field req "idea_id") (body_field req "user_id")
                   (after_check env req w)))).
Proof.
  unfold handler, is_post, check_allows, after_check, body_field.
  destruct (String.eqb (method req) "POST"); [|left; auto]. right.
  cbn [negb].
  destruct (RateLimiter.getRateLimit (now env) (rateLimiter w) (client_ip req))
    as [v c1]. cbn [fst snd].
  destruct (RateLimiter.allowed v); cbn [negb]; [right|left; auto].
  destruct (get_prop (body req) "idea") as [idea|] eqn:Hi; [right|left; auto].
  destruct (get_prop_some_any _ _ "idea_id" _ Hi) as (x & ->).
  destruct (get_prop_some_any _ _ "user_id" _ Hi) as (y & ->).
  destruct (truthy idea); cbn [negb]; [right|left; eauto 6].
  repeat split; eauto.
  destruct (try_block P env idea x y
              {| rateLimiter := c1; scores := scores w; llm_calls := llm_calls w |})
    as [[r|] w2]; reflexivity.
Qed.

(** X15. The scores table changes only together with a 200 response, and
    then only by one appended row that holds that response and the two ids
    of the request; the row is written exactly when both ids are truthy and
    the insert does not fail. *)
Theorem scores_change_only_by_the_returned_row P env req w :
  scores (snd (handler P env req w)) =
  match fst (handler P env req w) with
  | Ok s => if persists env req then (scores w ++ [row_of req s])%list
            else scores w
  | _ => scores w
  end.
Proof.
  destruct (handler_cases P env req w)
    as [(_ & ->)|[(_ & _ & ->)|[(_ & _ & _ & ->)|[(_ & _ & _ & _ & ->)
       |(_ & _ & _ & _ & ->)]]]]; try reflexivity.
  pose proof (try_block_effects P env (body_field req "idea")
                (body_field req "idea_id") (body_field req "user_id")
                (after_check env req w)) as H.
  cbv zeta in H. destruct H as (_ & _ & H). cbn [fst snd].
  destruct (fst (try_block P env (body_field req "idea")
                   (body_field req "idea_id") (body_field req "user_id")
                   (after_check env req w))) as [[| | | | |s|]|];
    try contradiction; try (destruct H as [H _]; exact H).
Qed.

Lemma truthy_string_has_text v :
  truthy v = true ->
  match as_string v with
  | Some _ => true
  | None => false
  end = match v with
        | Some (JStr s) => negb (String.eqb s "")
        | _ => false
        end.
Proof. destruct v as [[| | |s| |]|]; simpl; auto. Qed.

(** X16. The language model is called exactly when the request is a POST
    that the rate limiter allows and whose idea is a string that is not
    empty, and then exactly once; a 405, 429 or 400 never costs a call. *)
Theorem model_called_once_past_the_gates P env req w :
  llm_calls (snd (handler P env req w)) =
  if is_post req && check_allows env req w && has_text req
  then S (llm_calls w) else llm_calls w.
Proof.
  unfold has_text.
  destruct (handler_cases P env req w)
    as [(Hp & ->)|[(Hp & Ha & ->)|[(Hp & Ha & Hb & ->)
       |[(Hp & Ha & _ & Ht & ->)|(Hp & Ha & _ & Ht & ->)]]]];
    rewrite Hp; cbn [andb fst snd]; try reflexivity.
  - rewrite Ha. reflexivity.
  - rewrite Ha. unfold body_field. rewrite Hb. reflexivity.
  - rewrite Ha. cbn [andb].
    destruct (body_field req "idea") as [[| | |s| |]|]; try reflexivity;
      try discriminate Ht.
    simpl in Ht. rewrite Ht. reflexivity.
  - rewrite Ha. cbn [andb].
    pose proof (try_block_effects P env (body_field req "idea")
                  (body_field req "idea_id") (body_field req "user_id")
                  (after_check env req w)) as H.
    cbv zeta in H. destruct H as (_ & -> & _).
    rewrite <- (truthy_string_has_text _ Ht).
    destruct (as_string (body_field req "idea")); reflexivity.
Qed.

(* The same request environment with another outcome of the insert. *)
Definition with_insert_error (b : bool) (env : Env) : Env :=
  mkEnv (now env) (random env) (llm env) b.

Lemma try_block_response_insert P env b idea idea_id user_id w :
  fst (try_block P (with_insert_error b env) idea idea_id user_id w)
  = fst (try_block P env idea idea_id user_id w).
Proof.
  unfold try_block, bind, lift, ret, throw, call_llm, insert_score.
  cbn [llm random insert_error with_insert_error].
  destruct (as_string idea) as [text|]; [|reflexivity].
  destruct (heuristics P text (random env)) as [h g'].
  destruct (llm env) as [|[t|]|[data|]]; try reflexivity.
  destruct (message_content data) as [content|]; [|reflexivity].
  destruct (parse_reply P content) as [llmJson|]; [|reflexivity].
  destruct (get_prop (Some llmJson) "yc_bait_score") as [yc_v|]; [|reflexivity].
  destruct (ToNumber P yc_v) as [yc|]; [|reflexivity].
  destruct (get_prop (Some llmJson) "delusion_index") as [di_v|]; [|reflexivity].
  destruct (ToNumber P di_v) as [di|]; [|reflexivity].
  destruct (get_prop (Some llmJson) "founder_rank") as [rank|]; [|reflexivity].
  destruct (get_prop (Some llmJson) "goblin_verdict") as [verdict|]; [|reflexivity].
  destruct (truthy idea_id && truthy user_id); reflexivity.
Qed.

(** X17. A failure of the insert into the scores table is not seen by the
    caller: with the same request, clock, random draws and reply, the
    response is the same whether the insert fails or not, and so are the
    rate-limit cache and the number of calls of the model. *)
Theorem insert_failure_does_not_change_the_response P env req w b :
  fst (handler P (with_insert_error b env) req w) = fst (handler P env req w)
  /\ rateLimiter (snd (handler P (with_insert_error b env) req w))
     = rateLimiter (snd (handler P env req w))
  /\ llm_calls (snd (handler P (with_insert_error b env) req w))
     = llm_calls (snd (handler P env req w)).
Proof.
  unfold handler. cbn [now with_insert_error].
  destruct (negb (String.eqb (method req) "POST")); [auto|].
  destruct (RateLimiter.getRateLimit (now env) (rateLimiter w) (client_ip req))
    as [v c1].
  destruct (negb (RateLimiter.allowed v)); [auto|].
  destruct (get_prop (body req) "idea") as [idea|]; [|auto].
  destruct (get_prop (body req) "idea_id") as [idea_id|]; [|auto].
  destruct (get_prop (body req) "user_id") as [user_id|]; [|auto].
  destruct (negb (truthy idea)); [auto|].
  set (w1 := {| rateLimiter := c1; scores := scores w; llm_calls := llm_calls w |}).
  pose proof (try_block_response_insert P env b idea idea_id user_id w1) as Hr.
  pose proof (try_block_effects P (with_insert_error b env) idea idea_id
                user_id w1) as H1.
  pose proof (try_block_effects P env idea idea_id user_id w1) as H2.
  cbv zeta in H1, H2. destruct H1 as (Hc1 & Hl1 & _).
  destruct H2 as (Hc2 & Hl2 & _).
  destruct (try_block P (with_insert_error b env) idea idea_id user_id w1)
    as [o1 w2].
  destruct (try_block P env idea idea_id user_id w1) as [o2 w3].
  cbn [fst snd] in *. subst o1.
  destruct o2; cbn [fst snd]; repeat split; congruence.
Qed.

(** X18. When the call of the language model does not come back with a
    parsed body (the fetch rejects, the status is not a success or the body
    is not JSON), no request is answered with a score and no row is written.
    A request that got as far as the call is answered "LLM request failed"
    when the status is not a success and its text can be read, and by the
    catch clause otherwise; both are 500. *)
Theorem upstream_failure_gives_no_score P env req w :
  (forall data, llm env <> FetchOk (Some data)) ->
  (forall s, fst (handler P env req w) <> Ok s)
  /\ scores (snd (handler P env req w)) = scores w
  /\ (is_post req && check_allows env req w && has_text req = true ->
      fst (handler P env req w) =
      match llm env with
      | FetchNotOk (Some _) => LLMRequestFailed
      | _ => InternalServerError
      end).
Proof.
  intros Hfail. unfold has_text.
  destruct (handler_cases P env req w)
    as [(Hp & ->)|[(Hp & Ha & ->)|[(Hp & Ha & Hb & ->)
       |[(Hp & Ha & _ & Ht & ->)|(Hp & Ha & _ & Ht & ->)]]]];
    rewrite Hp; cbn [andb fst snd].
  - repeat split; discriminate.
  - rewrite Ha. repeat split; discriminate.
  - rewrite Ha. unfold body_field. rewrite Hb.
    repeat split; discriminate.
  - rewrite Ha. cbn [andb]. repeat split; try discriminate.
    destruct (body_field req "idea") as [[| | |s| |]|]; try discriminate.
    simpl in Ht. rewrite Ht. discriminate.
  - rewrite Ha. cbn [andb].
    rewrite <- (truthy_string_has_text _ Ht).
    pose proof (try_block_effects P env (body_field req "idea")
                  (body_field req "idea_id") (body_field req "user_id")
                  (after_check env req w)) as H.
    cbv zeta in H. destruct H as (_ & _ & H).
    destruct (fst (try_block P env (body_field req "idea")
                     (body_field req "idea_id") (body_field req "user_id")
                     (after_check env req w))) as [[| | | | |s|]|];
      try contradiction.
    + destruct H as (Hs & t & Hl). rewrite Hl.
      repeat split; [discriminate|exact Hs].
    + destruct H as (_ & data & Hl). exfalso. exact (Hfail data Hl).
    + destruct H as (Hs & Hl). repeat split; [discriminate|exact Hs|].
      intros Hstr. destruct Hl as [Hl|Hl]; [rewrite Hl in Hstr; discriminate|].
      destruct (llm env) as [|[t|]|[data|]]; try reflexivity.
      exfalso. exact (Hl t eq_refl).
Qed.

Definition upstream_down : Env :=
  mkEnv 0 (Sample.constant_rng 0) (FetchNotOk (Some "overloaded")) false.

Lemma upstream_failure_gives_no_score_witness :
  (forall s, fst (handler Sample.sample upstream_down
                    (Sample.post "Uber for dogs") initial) <> Ok s)
  /\ scores (snd (handler Sample.sample upstream_down
                    (Sample.post "Uber for dogs") initial)) = scores initial
  /\ (is_post (Sample.post "Uber for dogs")
       && check_allows upstream_down (Sample.post "Uber for dogs") initial
       && has_text (Sample.post "Uber for dogs") = true ->
      fst (handler Sample.sample upstream_down
             (Sample.post "Uber for dogs") initial) =
      match llm upstream_down with
      | FetchNotOk (Some _) => LLMRequestFailed
      | _ => InternalServerError
      end).
Proof.
  apply (upstream_failure_gives_no_score Sample.sample upstream_down
           (Sample.post "Uber for dogs") initial).
  intros data. discriminate.
Defined.

(** ** The composite score *)

(** X19. The composite of seven integer metrics that all lie between lo and
    hi, within the scale of 0 to 100, lies between lo and hi as well: it is
    never below the least metric nor above the greatest. *)
Theorem composite_between_least_and_greatest a b c d e f g lo hi :
  (0 <= lo)%Z -> (hi <= 100)%Z ->
  (lo <= a <= hi)%Z -> (lo <= b <= hi)%Z -> (lo <= c <= hi)%Z ->
  (lo <= d <= hi)%Z -> (lo <= e <= hi)%Z -> (lo <= f <= hi)%Z ->
  (lo <= g <= hi)%Z ->
  in_range lo hi
    (composite (of_Z a) (of_Z b) (of_Z c) (of_Z d) (of_Z e) (of_Z f) (of_Z g))
  = true.
Proof.
  intros Hlo Hhi Ha Hb Hc Hd He Hf Hg.
  rewrite composite_of_integers. apply in_range_of_Z. unfold clamp_0_100.
  set (s := (a + b + c + d + e + f + g)%Z).
  assert (Hs : (7 * lo <= s <= 7 * hi)%Z) by (unfold s; lia).
  assert (H1 : (lo <= (2 * s + 7) / 14)%Z)
    by (apply Z.div_le_lower_bound; lia).
  assert (H2 : ((2 * s + 7) / 14 < hi + 1)%Z)
    by (apply Z.div_lt_upper_bound; lia).
  lia.
Qed.

Lemma composite_between_least_and_greatest_witness :
  in_range 42 82
    (composite (of_Z 53) (of_Z 73) (of_Z 53) (of_Z 42) (of_Z 82) (of_Z 70)
               (of_Z 80))
  = true.
Proof.
  apply (composite_between_least_and_greatest 53 73 53 42 82 70 80 42 82);
    lia.
Defined.

(** X20. The composite is NaN exactly when one of the seven metrics is NaN:
    one missing number in the reply is enough to lose the composite. *)
Theorem composite_is_NaN_iff_a_metric_is a b c d e f g :
  is_NaN (composite a b c d e f g)
  = is_NaN a || is_NaN b || is_NaN c || is_NaN d || is_NaN e || is_NaN f
    || is_NaN g.
Proof.
  destruct a, b, c, d, e, f, g; try reflexivity.
  unfold composite. cbn [add div lift2 of_Z Math_round]. unfold n0, n100.
  rewrite clamp_of_Z. reflexivity.
Qed.

End HandlerExtras.

(** * The pages: tiers, ordinals and the week of the leaderboard

    [scoreTier] stands in [pages/idea.tsx] and in [pages/leaderboard.tsx]
    with the same text; [ordinal] and the start of the week are of
    [pages/leaderboard.tsx]. *)

Module Pages.

Import JS Engine.
Local Open Scope string_scope.

Inductive Tier : Type := high | mid | low.

(* scoreTier(val) *)
Definition scoreTier (val : number) : Tier :=
  if geb val (of_Z 70) then high
  else if geb val (of_Z 35) then mid
  else low.

(* The position of a tier, from low to high. *)
Definition tier_level (t : Tier) : Z :=
  match t with low => 0 | mid => 1 | high => 2 end.

(* s[i] for the array s of ordinal and an integer index: undefined outside
   the array. *)
Definition suffixes : list string := ["th"; "st"; "nd"; "rd"].

Definition at_index (i : Z) : option string :=
  if (i <? 0)%Z then None else nth_error suffixes (Z.to_nat i).

(* a || b || c on strings that are undefined or not empty *)
Definition or_else (a : option string) (b : string) : string :=
  match a with Some x => x | None => b end.

(* The suffix ordinal appends; % is the remainder that takes the sign of
   the dividend. *)
Definition ordinal_suffix (n : Z) : string :=
  let v := Z.rem n 100 in
  or_else (at_index (Z.rem (v - 20) 10))
          (or_else (at_index v) (or_else (at_index 0) "")).

(* Number.MAX_SAFE_INTEGER: up to it, in either direction, every integer is
   a number of its own, and % and - above are exact. *)
Definition MAX_SAFE_INTEGER : Z := 2 ^ 53 - 1.

Definition decimal (n : Z) : string := NilZero.string_of_int (Z.to_int n).

(* The string n + "..." begins with, for a number n that is a safe integer:
   its decimal writing.  Other numbers are written with rounded digits or
   with an exponent, and are left out. *)
Definition to_string (n : Z) : option string :=
  if (Z.abs n <=? MAX_SAFE_INTEGER)%Z then Some (decimal n) else None.

(* ordinal(n), for a safe integer n *)
Definition ordinal (n : Z) : option string :=
  option_map (fun digits => digits ++ ordinal_suffix n) (to_string n).

(* The start of the week in the effect of LeaderboardPage.  A date is its
   time value, the milliseconds since the epoch, a Thursday; getUTCDay
   counts from Sunday = 0; setUTCDate moves by whole days and
   setUTCHours(0, 0, 0, 0) goes back to the start of the UTC day. *)
Definition msPerDay : Z := 86400000.

Definition getUTCDay (t : Z) : Z := (t / msPerDay + 4) mod 7.

Definition weekStart (now : Z) : Z :=
  let day := getUTCDay now in
  let diff := if (day =? 0)%Z then -6 else 1 - day in
  let monday := now + diff * msPerDay in
  (monday / msPerDay) * msPerDay.

End Pages.

Module PagesFacts.

Import JS Engine NumberFacts HandlerFacts Pages.
Local Open Scope string_scope.

Lemma geb_le_trans a b c : JS.le a b -> geb a c = true -> geb b c = true.
Proof.
  destruct a as [x|], b as [y|], c as [z|]; simpl; try tauto; try discriminate.
  intros H1 H2. apply Qle_bool_iff in H2. apply Qle_bool_iff.
  eapply Qle_trans; eassumption.
Qed.

(** X21. scoreTier is monotone: of two numbers, the greater never gets the
    lower tier. *)
Theorem scoreTier_monotone a b :
  JS.le a b -> (tier_level (scoreTier a) <= tier_level (scoreTier b))%Z.
Proof.
  intros H. unfold scoreTier.
  destruct (geb a (of_Z 70)) eqn:A1.
  - rewrite (geb_le_trans a b _ H A1). simpl. lia.
  - destruct (geb a (of_Z 35)) eqn:A2.
    + rewrite (geb_le_trans a b _ H A2).
      destruct (geb b (of_Z 70)); simpl; lia.
    + destruct (geb b (of_Z 70)); [simpl; lia|].
      destruct (geb b (of_Z 35)); simpl; lia.
Qed.

Lemma scoreTier_monotone_witness :
  (tier_level (scoreTier (of_Z 34)) <= tier_level (scoreTier (of_Z 70)))%Z.
Proof.
  apply (scoreTier_monotone (of_Z 34) (of_Z 70)).
  unfold JS.le, of_Z, Qle. simpl. lia.
Defined.

(** X22. The delusion_index of a 200 response is shown in the low tier
    exactly when it is NaN: a number from the reply is clamped to at least
    55, which is mid or high. *)
Theorem delusion_is_low_only_when_NaN P env req w r w' :
  handler P env req w = (Ok r, w') ->
  (scoreTier (delusion_index r) = low <-> delusion_index r = NaN).
Proof.
  intros H. apply Ok_metrics in H.
  destruct H as (_ & _ & _ & _ & _ & _ & [Hd|Hd]).
  - rewrite Hd. split; reflexivity.
  - unfold in_range in Hd.
    destruct (as_integer (delusion_index r)) as [z|] eqn:E; [|discriminate].
    apply as_integer_of_Z in E. rewrite E.
    apply andb_true_iff in Hd. rewrite !Z.leb_le in Hd.
    unfold scoreTier, geb, of_Z. rewrite !Qle_bool_inject.
    split; [|discriminate].
    destruct (Z.leb_spec 70 z); [discriminate|].
    destruct (Z.leb_spec 35 z); [discriminate|lia].
Qed.

Lemma delusion_is_low_only_when_NaN_witness :
  scoreTier (of_Z 80) = low <-> of_Z 80 = NaN.
Proof.
  refine (delusion_is_low_only_when_NaN Sample.sample
            (Sample.answering 0 Sample.reply_chad)
            (Sample.post "Uber for dogs") initial
            (mkScoreResponse (of_Z 53) (of_Z 73) (of_Z 53) (of_Z 42) (of_Z 82)
               (of_Z 70) (of_Z 80) (Some (JStr "Chad"))
               (Some (JStr "Juicero for dogs.")) (of_Z 65))
            _ _).
  vm_compute. reflexivity.
Defined.

(* The suffix of English ordinals: st, nd and rd after a last digit of 1, 2
   and 3, except in the teens. *)
Definition english_suffix (n : Z) : string :=
  if ((n mod 100 =? 11) || (n mod 100 =? 12) || (n mod 100 =? 13))%Z then "th"
  else if (n mod 10 =? 1)%Z then "st"
  else if (n mod 10 =? 2)%Z then "nd"
  else if (n mod 10 =? 3)%Z then "rd"
  else "th".

Lemma suffix_below_100 (k : nat) :
  (k < 100)%nat ->
  ordinal_suffix (Z.of_nat k) = english_suffix (Z.of_nat k).
Proof.
  intros H.
  do 100 (destruct k as [|k]; [reflexivity|]). lia.
Qed.

Lemma ordinal_suffix_mod n :
  (0 <= n)%Z -> ordinal_suffix n = ordinal_suffix (n mod 100).
Proof.
  intros H. unfold ordinal_suffix.
  pose proof (Z.mod_pos_bound n 100 ltac:(lia)) as Hb.
  rewrite (Z.rem_mod_nonneg n 100) by lia.
  rewrite (Z.rem_mod_nonneg (n mod 100) 100) by lia.
  rewrite Z.mod_mod by lia. reflexivity.
Qed.

Lemma english_suffix_mod n :
  english_suffix n = english_suffix (n mod 100).
Proof.
  unfold english_suffix. rewrite Z.mod_mod by lia.
  replace ((n mod 100) mod 10)%Z with (n mod 10)%Z; [reflexivity|].
  symmetry. apply Z.mod_mod_divide. exists 10%Z. reflexivity.
Qed.

(** X23. For every safe integer n >= 0 (up to 2^53 - 1), ordinal(n) is the
    decimal writing of n followed by the English suffix: "st", "nd" or "rd"
    when n ends in 1, 2 or 3 and not in 11, 12 or 13, and "th" otherwise. *)
Theorem ordinal_is_english n :
  (0 <= n <= MAX_SAFE_INTEGER)%Z ->
  ordinal n = Some (decimal n ++ english_suffix n).
Proof.
  intros H. unfold ordinal, to_string.
  destruct (Z.leb_spec (Z.abs n) MAX_SAFE_INTEGER) as [_|Hbig]; [|lia].
  cbn [option_map]. do 2 f_equal.
  rewrite ordinal_suffix_mod, english_suffix_mod by lia.
  pose proof (Z.mod_pos_bound n 100 ltac:(lia)) as Hb.
  rewrite <- (Z2Nat.id (n mod 100)) by lia.
  apply suffix_below_100. lia.
Qed.

Lemma ordinal_is_english_witness :
  ordinal 112 = Some (decimal 112 ++ english_suffix 112).
Proof.
  apply (ordinal_is_english 112). unfold MAX_SAFE_INTEGER. lia.
Defined.

Example ordinal_samples :
  map ordinal [1; 2; 3; 4; 11; 12; 13; 21; 101; 112]%Z
  = map Some ["1st"; "2nd"; "3rd"; "4th"; "11th"; "12th"; "13th"; "21st";
              "101st"; "112th"].
Proof. vm_compute. reflexivity. Qed.

(** X24. The start of the week the leaderboard queries from is a Monday at
    00:00 UTC, it is not after the present moment, and the present moment
    is less than seven days after it. *)
Theorem weekStart_is_the_last_monday now :
  getUTCDay (weekStart now) = 1%Z
  /\ (weekStart now mod msPerDay = 0)%Z
  /\ (weekStart now <= now < weekStart now + 7 * msPerDay)%Z.
Proof.
  unfold weekStart, getUTCDay, msPerDay.
  set (D := (now / 86400000)%Z).
  assert (Hn : (86400000 * D <= now < 86400000 * D + 86400000)%Z).
  { unfold D. pose proof (Z.div_mod now 86400000 ltac:(lia)).
    pose proof (Z.mod_pos_bound now 86400000 ltac:(lia)). lia. }
  pose proof (Z.mod_pos_bound (D + 4) 7 ltac:(lia)) as Hd.
  pose proof (Z.div_mod (D + 4) 7 ltac:(lia)) as Hq.
  set (day := ((D + 4) mod 7)%Z) in *.
  set (q := ((D + 4) / 7)%Z) in *.
  set (diff := if (day =? 0)%Z then (-6)%Z else (1 - day)%Z).
  assert (Hdiff : (-6 <= diff <= 0)%Z /\ (D + diff + 4 = 7 * (if (day =? 0)%Z then q - 1 else q) + 1)%Z).
  { unfold diff. destruct (Z.eqb_spec day 0); lia. }
  destruct Hdiff as [Hr He].
  rewrite Z.div_add by lia. fold D.
  rewrite Z.div_mul, Z.mod_mul by lia.
  split; [|split; [reflexivity|lia]].
  rewrite He. rewrite Z.add_comm, Z.mul_comm, Z.mod_add by lia. reflexivity.
Qed.

End PagesFacts.

(** * The earlier variant of the route

    The text of [pages/leaderboard.tsx] ends with an earlier variant of the
    scoring route.  Its keyword lists, countMatches and clamp are those of
    [pages/api/score.ts]; its scoreFromHits and the constants of its
    heuristics differ. *)

Module Legacy.

Import JS Engine.
Local Open Scope string_scope.

(* scoreFromHits(hits, ramp) of the earlier variant *)
Definition scoreFromHits (P : Platform) (hits : nat) (ramp : Q) (g : rng)
  : number * rng :=
  if Nat.eqb hits 0
  then let '(r, g1) := Math_random g in
       (Math_floor (mul r (of_Z 20)), g1)
  else
    let base :=
      Math_min n100
        (Math_round
           (add (of_Z 40)
                (mul (of_Z 30)
                     (Num (Math_log P (inject_Z (Z.of_nat hits) * ramp)))))) in
    let '(r, g1) := Math_random g in
    let jitter := sub (Math_floor (mul r (of_Z 10))) (of_Z 5) in
    (clamp (add base jitter) n0 n100, g1).

(* Sections 1 to 5 of the earlier handler *)
Definition heuristics (P : Platform) (idea : string) (g : rng)
  : Heuristics * rng :=
  let wordCount := List.length (Str.split_ws (Str.trim idea)) in
  let aiHits := countMatches idea AI_KEYWORDS in
  let '(ai_hype_beast, g1) := scoreFromHits P aiHits ramp_ai g in
  let buzzHits := countMatches idea BUZZWORDS in
  let '(buzzRaw, g2) := scoreFromHits P buzzHits ramp_buzz g1 in
  let lengthPenalty :=
    if (80 <? wordCount)%nat then of_Z 10
    else if (40 <? wordCount)%nat then of_Z 5 else of_Z 0 in
  let buzzword_density := clamp (sub buzzRaw lengthPenalty) n0 n100 in
  let cringeHits := countMatches idea CRINGE_PHRASES in
  let '(cringe_founder_energy, g3) := scoreFromHits P cringeHits ramp_cringe g2 in
  let specificityBonus :=
    Math_min (div (of_nat wordCount) (Num (15 # 10))) (of_Z 40) in
  let hypePenalty :=
    Math_round (div (add ai_hype_beast buzzword_density) (of_Z 8)) in
  let marketBase := sub (add (of_Z 20) specificityBonus) hypePenalty in
  let '(r, g4) := Math_random g3 in
  let jitter := jitter_of r in
  let market_viability := clamp (add marketBase jitter) n0 n100 in
  let '(pivot_to_ai_probability, g5) :=
    if geb ai_hype_beast (of_Z 60) then pivot_draw 15 20 g4
    else if geb buzzword_density (of_Z 50) then pivot_draw 65 30 g4
    else if geb market_viability (of_Z 55) then pivot_draw 35 25 g4
    else pivot_draw 20 30 g4 in
  (mkHeuristics ai_hype_beast buzzword_density cringe_founder_energy
                market_viability pivot_to_ai_probability, g5).

End Legacy.

Module LegacyFacts.

Import JS Engine NumberFacts HeuristicFacts.
Local Open Scope string_scope.

(** X25. In the earlier variant, scoreFromHits without a hit is an integer
    from 0 to 19, the floor of twenty times the random draw, and it is 0
    itself for the least draw: the floor of 53 came with the later
    variant. *)
Theorem legacy_zero_hits_from_0_to_19 P ramp :
  (forall g, in_range 0 19 (fst (Legacy.scoreFromHits P 0 ramp g)) = true)
  /\ fst (Legacy.scoreFromHits P 0 ramp (fun _ => 0%Z)) = of_Z 0.
Proof.
  split; [|reflexivity].
  intros g. unfold Legacy.scoreFromHits. cbn [Nat.eqb].
  destruct (floor_random_range g 20 ltac:(lia)) as (z & E & Hz).
  destruct (Math_random g) as [r g1]. cbn [fst] in *. rewrite E.
  apply in_range_of_Z. lia.
Qed.

Lemma legacy_scoreFromHits_in_range P hits ramp g :
  in_range 0 100 (fst (Legacy.scoreFromHits P hits ramp g)) = true.
Proof.
  unfold Legacy.scoreFromHits. destruct (Nat.eqb hits 0).
  - destruct (floor_random_range g 20 ltac:(lia)) as (z & E & Hz).
    destruct (Math_random g) as [r g1]. cbn [fst] in *. rewrite E.
    apply in_range_of_Z. lia.
  - destruct (floor_random_range g 10 ltac:(lia)) as (z & E & Hz).
    destruct (Math_random g) as [r g1]. cbn [fst] in *. rewrite E.
    apply clamp_in_range; [|lia].
    apply finite_lift2; [|apply finite_lift2; apply finite_of_Z].
    apply finite_Math_min; [apply finite_of_Z|]. apply finite_Math_round.
    apply finite_Num.
Qed.

(** X26. In the earlier variant too, the five heuristic metrics are integers
    from 0 to 100, whatever the idea, the random draws and the platform. *)
Theorem legacy_heuristics_in_range P idea g :
  let h := fst (Legacy.heuristics P idea g) in
  in_range 0 100 (h_ai_hype_beast h) = true
  /\ in_range 0 100 (h_buzzword_density h) = true
  /\ in_range 0 100 (h_cringe_founder_energy h) = true
  /\ in_range 0 100 (h_market_viability h) = true
  /\ in_range 0 100 (h_pivot_to_ai_probability h) = true.
Proof.
  unfold Legacy.heuristics.
  pose proof (legacy_scoreFromHits_in_range P (countMatches idea AI_KEYWORDS) ramp_ai g) as Hai.
  destruct (Legacy.scoreFromHits P (countMatches idea AI_KEYWORDS) ramp_ai g) as [ai g1].
  pose proof (legacy_scoreFromHits_in_range P (countMatches idea BUZZWORDS) ramp_buzz g1) as Hbz.
  destruct (Legacy.scoreFromHits P (countMatches idea BUZZWORDS) ramp_buzz g1) as [buzzRaw g2].
  pose proof (legacy_scoreFromHits_in_range P (countMatches idea CRINGE_PHRASES) ramp_cringe g2) as Hcr.
  destruct (Legacy.scoreFromHits P (countMatches idea CRINGE_PHRASES) ramp_cringe g2) as [cringe g3].
  cbn [fst] in Hai, Hbz, Hcr.
  set (lengthPenalty :=
         if (80 <? List.length (Str.split_ws (Str.trim idea)))%nat then of_Z 10
         else if (40 <? List.length (Str.split_ws (Str.trim idea)))%nat
              then of_Z 5 else of_Z 0).
  assert (Hlp : finite lengthPenalty).
  { unfold lengthPenalty.
    destruct (80 <? _)%nat; [apply finite_of_Z|].
    destruct (40 <? _)%nat; apply finite_of_Z. }
  assert (Hbuzz : in_range 0 100 (clamp (sub buzzRaw lengthPenalty) n0 n100) = true).
  { apply clamp_in_range; [|lia].
    apply finite_lift2; [eapply in_range_finite; eassumption|exact Hlp]. }
  set (buzz := clamp (sub buzzRaw lengthPenalty) n0 n100) in *.
  pose proof (finite_jitter g3) as Hj.
  destruct (Math_random g3) as [r g4]. cbn [fst] in Hj.
  match goal with
  | |- context [clamp (add ?m (jitter_of r)) n0 n100] =>
      assert (Hmarket : in_range 0 100 (clamp (add m (jitter_of r)) n0 n100) = true);
      [|set (market := clamp (add m (jitter_of r)) n0 n100) in *]
  end.
  { apply clamp_in_range; [|lia].
    apply finite_lift2; [|exact Hj].
    apply finite_lift2.
    - apply finite_lift2; [apply finite_of_Z|].
      apply finite_Math_min; [|apply finite_of_Z].
      apply finite_lift2; apply finite_Num.
    - apply finite_Math_round. apply finite_lift2; [|apply finite_of_Z].
      apply finite_lift2; eapply in_range_finite; eassumption. }
  match goal with
  | |- context [let '(p, g5) := ?X in _] =>
      assert (Hp : in_range 0 100 (fst X) = true)
        by (repeat match goal with
                   | |- context [if ?b then _ else _] => destruct b
                   end; apply pivot_draw_in_range);
      destruct X as [pivot g5]
  end.
  cbn [fst h_ai_hype_beast h_buzzword_density h_cringe_founder_energy
       h_market_viability h_pivot_to_ai_probability] in *. auto.
Qed.

End LegacyFacts.

(** * The idea page and the route together

    What [pages/idea.tsx] sends to the route: the text area keeps at most
    MAX_CHARS code units, and handleSubmit posts the idea only when it is
    not blank, a user is signed in and the idea has been stored. *)

Module IdeaPage.

Import JS Engine.
Local Open Scope string_scope.

Definition MAX_CHARS : nat := 500.

(* The idea kept by onChange: e.target.value.slice(0, MAX_CHARS) *)
Definition onChange (typed : string) : string := substring 0 MAX_CHARS typed.

(* !userId, for a user id that is a string or null *)
Definition no_user (userId : option string) : bool :=
  match userId with
  | Some u => String.eqb u ""
  | None => true
  end.

(* The body handleSubmit posts, as the route reads it back from JSON, or
   nothing when it returns early.  [inserted] is the id of the row of the
   idea, [None] when the insert failed or gave no row; JSON.stringify leaves
   out an id that is undefined. *)
Definition handleSubmit (idea : string) (userId : option string)
    (inserted : option value) : option json :=
  if String.eqb (Str.trim idea) "" || no_user userId then None
  else
    match inserted, userId with
    | Some id, Some u =>
        Some (JObj ([("idea", JStr idea)]
                    ++ match id with
                       | Some v => [("idea_id", v)]
                       | None => []
                       end
                    ++ [("user_id", JStr u)])%list)
    | _, _ => None
    end.

End IdeaPage.

Module IdeaPageFacts.

Import JS Engine HandlerFacts SharedIdentityFacts HandlerExtras IdeaPage.
Local Open Scope string_scope.

Lemma substring_length n m s : (String.length (substring n m s) <= m)%nat.
Proof.
  revert n m. induction s as [|c r IH]; intros n m.
  - destruct n, m; simpl; lia.
  - destruct n as [|n]; [destruct m as [|m]|]; cbn [substring String.length].
    + lia.
    + specialize (IH 0%nat m). lia.
    + apply IH.
Qed.

(** X27. The idea the page posts has at most 500 code units and is not
    blank, and the route never answers such a request with 400 (Missing
    idea), 405 or an uncaught exception, whatever the caller's address and
    the state of the server: it is either rate limited or scored. *)
Theorem page_never_triggers_missing_idea typed userId inserted b :
  handleSubmit (onChange typed) userId inserted = Some b ->
  (String.length (onChange typed) <= 500)%nat
  /\ Str.trim (onChange typed) <> ""
  /\ forall P env xff ra w,
       let r := fst (handler P env (mkRequest "POST" xff ra (Some b)) w) in
       r <> MissingIdea /\ r <> MethodNotAllowed /\ r <> Uncaught.
Proof.
  unfold handleSubmit. set (idea := onChange typed).
  destruct (String.eqb_spec (Str.trim idea) "") as [|Ht]; [discriminate|].
  cbn [orb]. destruct (no_user userId); [discriminate|].
  destruct inserted as [id|]; [|discriminate].
  destruct userId as [u|]; [|discriminate].
  intros [= <-].
  split; [apply substring_length|]. split; [exact Ht|].
  intros P env xff ra w.
  assert (Hidea : idea <> "") by (intros E; rewrite E in Ht; apply Ht; reflexivity).
  set (req := mkRequest "POST" xff ra _).
  assert (Hb : body_field req "idea" = Some (JStr idea)) by reflexivity.
  assert (Htruthy : truthy (body_field req "idea") = true).
  { rewrite Hb. simpl. destruct (String.eqb_spec idea ""); [contradiction|reflexivity]. }
  cbv zeta.
  destruct (handler_cases P env req w)
    as [(Hp & _)|[(_ & _ & ->)|[(_ & _ & Hn & _)|[(_ & _ & _ & Hf & _)
       |(_ & _ & _ & _ & ->)]]]].
  - discriminate Hp.
  - cbn [fst]. repeat split; discriminate.
  - discriminate Hn.
  - congruence.
  - cbn [fst].
    pose proof (try_block_effects P env (body_field req "idea")
                  (body_field req "idea_id") (body_field req "user_id")
                  (after_check env req w)) as H.
    cbv zeta in H. destruct H as (_ & _ & H).
    destruct (fst (try_block P env (body_field req "idea")
                     (body_field req "idea_id") (body_field req "user_id")
                     (after_check env req w))) as [[| | | | |s|]|];
      try contradiction; repeat split; discriminate.
Qed.

Lemma page_never_triggers_missing_idea_witness :
  (String.length (onChange "Uber for dogs") <= 500)%nat
  /\ Str.trim (onChange "Uber for dogs") <> ""
  /\ forall P env xff ra w,
       let r := fst (handler P env
                       (mkRequest "POST" xff ra
                          (Some (JObj [("idea", JStr "Uber for dogs");
                                       ("idea_id", JNum 7);
                                       ("user_id", JStr "u1")]))) w) in
       r <> MissingIdea /\ r <> MethodNotAllowed /\ r <> Uncaught.
Proof.
  apply (page_never_triggers_missing_idea "Uber for dogs" (Some "u1")
           (Some (Some (JNum 7)))).
  reflexivity.
Defined.

End IdeaPageFacts.
